(** * SurveyZama: the confidential response ledger

    A shallow embedding of [contracts/Survey_.sol] (contract [SurveyZama]) and
    of the client decryption flow [decryptData] of [frontend/web/src/App.tsx],
    with the properties of the ledger stated over them.

    Storage mappings are [gmap]s read with Solidity's zero default, dynamic
    arrays are lists, a transaction is a computation in a state-and-revert
    monad, and the FHE library the contract imports is an interface. *)

From Stdlib Require Import NArith ZArith Lia.
From stdpp Require Import gmap strings list fin_maps pretty.

Local Open Scope N_scope.

(** ** Solidity value types *)

(** [uint256] and [uint32] are naturals below their bound; [euint32] and
    [externalEuint32] are user-defined value types over [bytes32], that is
    opaque 256-bit handles. The contract does arithmetic on two of them
    only: the loop index, which stays below the array length, and the
    [uint32] count, whose checked increment is written out in [checkedInc].
    The properties below hold for all naturals, so for all values of the
    Solidity types. *)
Abbreviation uint256 := N (only parsing).
Abbreviation uint32 := N (only parsing).
Abbreviation bytes32 := N (only parsing).
Abbreviation euint32 := N (only parsing).
Abbreviation externalEuint32 := N (only parsing).
Abbreviation bytes := (list Byte.byte) (only parsing).

Definition uint32_max : N := 2 ^ 32 - 1.

(** ** The FHE library, as the contract sees it

    [@fhevm/solidity/lib/FHE.sol] is an imported dependency. The contract
    uses six of its functions; the three that compute are fields of the
    interface, the two that only touch the access-control list are recorded
    in the state as grants, and [toBytes32] is the unwrapping of the handle. *)
Class FHELib := {
  (** [FHE.fromExternal(input, proof)]: the handle bound to the input, or
      [None] when the library reverts on the proof. *)
  fromExternal : externalEuint32 -> bytes -> option euint32;
  (** [FHE.isInitialized(v)]. *)
  isInitialized : euint32 -> bool;
  (** [FHE.add(a, b)]: the handle of the homomorphic sum. *)
  add : euint32 -> euint32 -> euint32;
  (** [FHE.checkSignatures(handles, cleartexts, proof)]: [false] when the
      library reverts. *)
  checkSignatures : list bytes32 -> bytes -> bytes -> bool;
}.

Definition toBytes32 (v : euint32) : bytes32 := v.

(** ** Storage layout *)

Record EncryptedResponse := mkResponse {
  encryptedAge : euint32;
  encryptedIncome : euint32;
  encryptedSatisfaction : euint32;
  publicCategory : uint256;
  timestamp : uint256;
  isVerified : bool;
}.

Record SurveyStats := mkStats {
  totalResponses : uint32;
  sumAge : euint32;
  sumIncome : euint32;
  sumSatisfaction : euint32;
}.

Inductive Event :=
| ResponseSubmitted (responseId : uint256) (category : uint256)
| ResponseVerified (responseId : uint256)
| StatsUpdated (categoryId : uint256) (total : uint256).

(** Grants made on the access-control list by [FHE.allowThis] and
    [FHE.makePubliclyDecryptable]. *)
Inductive Grant :=
| AllowThis (h : euint32)
| PubliclyDecryptable (h : euint32).

Record State := mkState {
  responses : gmap N EncryptedResponse;
  categoryStats : gmap N SurveyStats;
  responseIds : list N;
  categoryIds : list N;
  events : list Event;
  grants : list Grant;
}.

(** The value a mapping holds at a key that was never written. *)
Definition zeroResponse : EncryptedResponse := mkResponse 0 0 0 0 0 false.
Definition zeroStats : SurveyStats := mkStats 0 0 0 0.

Definition responseAt (s : State) (id : N) : EncryptedResponse :=
  default zeroResponse (responses s !! id).

Definition statsAt (s : State) (c : N) : SurveyStats :=
  default zeroStats (categoryStats s !! c).

(** State after the constructor. *)
Definition initState : State := mkState ∅ ∅ [] [] [] [].

(** The plaintext values a response record holds. The struct
    [EncryptedResponse] declares the three handles, the category, the
    timestamp and the flag, and no field for a revealed value: whatever the
    record, it holds none. *)
Definition plaintexts (r : EncryptedResponse) : list N := [].

(** Field updates, as Solidity's assignments to a storage struct member. *)
Definition setVerified (r : EncryptedResponse) (b : bool) : EncryptedResponse :=
  mkResponse (encryptedAge r) (encryptedIncome r) (encryptedSatisfaction r)
             (publicCategory r) (timestamp r) b.

(** ** Transactions: state and revert *)

Inductive error :=
| Revert (reason : string)     (* a failed [require] *)
| FHERevert                    (* a revert inside the FHE library *)
| Panic (code : N).            (* checked arithmetic, [Panic(0x11)] *)

Inductive result (A : Type) :=
| Ok (a : A)
| Err (e : error).
Arguments Ok {A} a.
Arguments Err {A} e.

Definition M (A : Type) : Type := State -> result (A * State).

Definition ret {A} (a : A) : M A := fun s => Ok (a, s).

Definition bind {A B} (m : M A) (k : A -> M B) : M B :=
  fun s => match m s with
           | Ok (a, s') => k a s'
           | Err e => Err e
           end.

Definition throw {A} (e : error) : M A := fun _ => Err e.

Definition gets {A} (f : State -> A) : M A := fun s => Ok (f s, s).

Definition modify (f : State -> State) : M unit := fun s => Ok (tt, f s).

Definition require (cond : bool) (reason : string) : M unit :=
  if cond then ret tt else throw (Revert reason).

Declare Scope sol_scope.
Delimit Scope sol_scope with sol.
Notation "x <- m ;; k" := (bind m (fun x => k))
  (at level 100, m at next level, right associativity) : sol_scope.
Notation "m ;; k" := (bind m (fun _ => k))
  (at level 100, right associativity) : sol_scope.

(** Storage writes. *)
Definition setResponse (id : N) (r : EncryptedResponse) (s : State) : State :=
  mkState (<[id := r]> (responses s)) (categoryStats s) (responseIds s)
          (categoryIds s) (events s) (grants s).

Definition setStats (c : N) (st : SurveyStats) (s : State) : State :=
  mkState (responses s) (<[c := st]> (categoryStats s)) (responseIds s)
          (categoryIds s) (events s) (grants s).

Definition pushResponseId (id : N) (s : State) : State :=
  mkState (responses s) (categoryStats s) (responseIds s ++ [id])
          (categoryIds s) (events s) (grants s).

Definition pushCategoryId (c : N) (s : State) : State :=
  mkState (responses s) (categoryStats s) (responseIds s)
          (categoryIds s ++ [c]) (events s) (grants s).

Definition emit (e : Event) : M unit :=
  modify (fun s => mkState (responses s) (categoryStats s) (responseIds s)
                           (categoryIds s) (events s ++ [e]) (grants s)).

Definition grant (g : Grant) : M unit :=
  modify (fun s => mkState (responses s) (categoryStats s) (responseIds s)
                           (categoryIds s) (events s) (grants s ++ [g])).

Local Open Scope sol_scope.

(** ** The contract *)

Section Contract.
Context `{FHE : FHELib}.

(** A call into the library that may revert. *)
Definition fromExternalM (input : externalEuint32) (proof : bytes) : M euint32 :=
  match fromExternal input proof with
  | Some h => ret h
  | None => throw FHERevert
  end.

Definition checkSignaturesM (cts : list bytes32) (cleartexts proof : bytes) : M unit :=
  if checkSignatures cts cleartexts proof then ret tt else throw FHERevert.

(** [responseIds.length]. *)
Definition responseCount (s : State) : uint256 := N.of_nat (length (responseIds s)).

(** [submitResponse]. The three external inputs are named [extAge],
    [extIncome] and [extSatisfaction] here, the source's names being those
    of the record's fields; [blockTimestamp] is [block.timestamp] of the
    transaction. *)
Definition submitResponse (publicCategory : uint256)
    (extAge : externalEuint32) (ageProof : bytes)
    (extIncome : externalEuint32) (incomeProof : bytes)
    (extSatisfaction : externalEuint32) (satisfactionProof : bytes)
    (blockTimestamp : uint256) : M unit :=
  responseId <- gets responseCount ;;

  a <- fromExternalM extAge ageProof ;;
  require (isInitialized a) "Invalid age encryption" ;;
  i <- fromExternalM extIncome incomeProof ;;
  require (isInitialized i) "Invalid income encryption" ;;
  t <- fromExternalM extSatisfaction satisfactionProof ;;
  require (isInitialized t) "Invalid satisfaction encryption" ;;

  hAge <- fromExternalM extAge ageProof ;;
  hIncome <- fromExternalM extIncome incomeProof ;;
  hSatisfaction <- fromExternalM extSatisfaction satisfactionProof ;;
  modify (setResponse responseId
            (mkResponse hAge hIncome hSatisfaction publicCategory blockTimestamp false)) ;;

  r <- gets (fun s => responseAt s responseId) ;;
  grant (AllowThis (encryptedAge r)) ;;
  grant (AllowThis (encryptedIncome r)) ;;
  grant (AllowThis (encryptedSatisfaction r)) ;;

  grant (PubliclyDecryptable (encryptedAge r)) ;;
  grant (PubliclyDecryptable (encryptedIncome r)) ;;
  grant (PubliclyDecryptable (encryptedSatisfaction r)) ;;

  modify (pushResponseId responseId) ;;

  st <- gets (fun s => statsAt s publicCategory) ;;
  (if totalResponses st =? 0
   then modify (pushCategoryId publicCategory)
   else ret tt) ;;

  emit (ResponseSubmitted responseId publicCategory).

(** [verifyResponse]. The cleartexts handed to [checkSignatures] are the
    empty byte string. *)
Definition verifyResponse (responseId : uint256)
    (ageProof incomeProof satisfactionProof : bytes) : M unit :=
  n <- gets responseCount ;;
  require (responseId <? n) "Invalid response ID" ;;
  r <- gets (fun s => responseAt s responseId) ;;
  require (negb (isVerified r)) "Response already verified" ;;

  let cts := [toBytes32 (encryptedAge r);
              toBytes32 (encryptedIncome r);
              toBytes32 (encryptedSatisfaction r)] in

  checkSignaturesM cts [] ageProof ;;
  checkSignaturesM cts [] incomeProof ;;
  checkSignaturesM cts [] satisfactionProof ;;

  modify (fun s => setResponse responseId (setVerified (responseAt s responseId) true) s) ;;
  emit (ResponseVerified responseId).

(** The four locals of [updateCategoryStats]. *)
Record Acc := mkAcc {
  accAge : euint32;
  accIncome : euint32;
  accSatisfaction : euint32;
  accCount : uint32;
}.

(** [count++] on a [uint32], checked since Solidity 0.8. *)
Definition checkedInc (count : uint32) : M uint32 :=
  if count <? uint32_max then ret (count + 1) else throw (Panic 17).

(** The [for] loop of [updateCategoryStats]: [n] iterations are left and
    [i] is the loop index, started with [n = responseIds.length], [i = 0]. *)
Fixpoint statsLoop (categoryId : uint256) (n : nat) (i : uint256) (acc : Acc) : M Acc :=
  match n with
  | O => ret acc
  | S n' =>
      r <- gets (fun s => responseAt s i) ;;
      acc' <- (if (publicCategory r =? categoryId) && isVerified r
               then
                 count' <- checkedInc (accCount acc) ;;
                 ret (mkAcc (add (accAge acc) (encryptedAge r))
                            (add (accIncome acc) (encryptedIncome r))
                            (add (accSatisfaction acc) (encryptedSatisfaction r))
                            count')
               else ret acc) ;;
      statsLoop categoryId n' (i + 1) acc'
  end.

Definition updateCategoryStats (categoryId : uint256) : M unit :=
  st <- gets (fun s => statsAt s categoryId) ;;
  require (0 <? totalResponses st) "Category has no responses" ;;

  n <- gets (fun s => length (responseIds s)) ;;
  acc <- statsLoop categoryId n 0 (mkAcc 0 0 0 0) ;;

  modify (setStats categoryId
            (mkStats (accCount acc) (accAge acc) (accIncome acc) (accSatisfaction acc))) ;;

  emit (StatsUpdated categoryId (accCount acc)).

(** The views. *)
Definition getResponse (responseId : uint256) : M EncryptedResponse :=
  n <- gets responseCount ;;
  require (responseId <? n) "Invalid response ID" ;;
  gets (fun s => responseAt s responseId).

Definition getCategoryStats (categoryId : uint256) : M SurveyStats :=
  gets (fun s => statsAt s categoryId).

Definition getAllResponseIds : M (list uint256) := gets responseIds.

Definition getAllCategoryIds : M (list uint256) := gets categoryIds.

Definition isAvailable : bool := true.

(** ** Transactions and reachable states *)

Inductive Call :=
| CallSubmit (category : uint256)
    (extAge : externalEuint32) (ageProof : bytes)
    (extIncome : externalEuint32) (incomeProof : bytes)
    (extSatisfaction : externalEuint32) (satisfactionProof : bytes)
    (blockTimestamp : uint256)
| CallVerify (responseId : uint256) (ageProof incomeProof satisfactionProof : bytes)
| CallUpdate (categoryId : uint256).

Definition run (c : Call) : M unit :=
  match c with
  | CallSubmit cat ea pa ei pi es ps ts => submitResponse cat ea pa ei pi es ps ts
  | CallVerify id pa pi ps => verifyResponse id pa pi ps
  | CallUpdate cat => updateCategoryStats cat
  end.

(** The state a transaction leaves: its own on success, the one it found
    on a revert. *)
Definition transact (c : Call) (s : State) : State :=
  match run c s with
  | Ok (_, s') => s'
  | Err _ => s
  end.

Definition transactAll (cs : list Call) (s : State) : State :=
  fold_left (fun s c => transact c s) cs s.

Inductive reachable : State -> Prop :=
| reachable_init : reachable initState
| reachable_step s c : reachable s -> reachable (transact c s).

End Contract.

(** ** A transparent instance of the library

    Handles are their own plaintexts plus one (so that zero stays the
    uninitialised handle), a proof is valid when it is not empty, and the
    homomorphic sum is computed on the plaintexts modulo [2^32]. It serves to
    run the contract on concrete inputs. *)
Definition plainAdd (a b : N) : N :=
  ((if a =? 0 then 0 else a - 1) + (if b =? 0 then 0 else b - 1)) mod 2 ^ 32 + 1.

#[local] Instance plainFHE : FHELib := {|
  fromExternal input proof :=
    match proof with
    | [] => None
    | _ :: _ => Some input
    end;
  isInitialized v := negb (v =? 0);
  add := plainAdd;
  checkSignatures cts cleartexts proof :=
    match proof with
    | [] => false
    | _ :: _ => true
    end;
|}.

Definition okProof : list Byte.byte := [Byte.x01].
Definition badProof : list Byte.byte := [].

(** Runs used below: one response of category 7 submitted, the same then
    verified, and two responses of category 7 submitted and verified. *)
Definition submitA : Call := CallSubmit 7 31 okProof 50001 okProof 9 okProof 1000.
Definition submitB : Call := CallSubmit 7 41 okProof 40001 okProof 7 okProof 1001.
Definition verifyA : Call := CallVerify 0 okProof okProof okProof.
Definition verifyB : Call := CallVerify 1 okProof okProof okProof.

(** A run of calls from the state after the constructor. *)
Definition afterCalls `{FHELib} (cs : list Call) : State := transactAll cs initState.

(** A storage in which the cache of category 7 already counts a response,
    the two responses of category 7 being submitted and verified: no run
    of calls leads to it, and [updateCategoryStats] gets past its
    precondition on it. *)
Definition primed : State :=
  setStats 7 (mkStats 1 0 0 0) (afterCalls [submitA; submitB; verifyA; verifyB]).

(** The state a successful [submitResponse] leaves. *)
Definition submitted (s : State) (publicCategory hAge hIncome hSatisfaction ts : N) : State :=
  let id := responseCount s in
  mkState (<[id := mkResponse hAge hIncome hSatisfaction publicCategory ts false]> (responses s))
          (categoryStats s)
          (responseIds s ++ [id])
          (if totalResponses (statsAt s publicCategory) =? 0
           then categoryIds s ++ [publicCategory] else categoryIds s)
          (events s ++ [ResponseSubmitted id publicCategory])
          (grants s ++ [AllowThis hAge] ++ [AllowThis hIncome] ++ [AllowThis hSatisfaction]
             ++ [PubliclyDecryptable hAge] ++ [PubliclyDecryptable hIncome]
             ++ [PubliclyDecryptable hSatisfaction]).

(** The state a successful [verifyResponse] leaves. *)
Definition verified (s : State) (id : N) : State :=
  mkState (<[id := setVerified (responseAt s id) true]> (responses s))
          (categoryStats s) (responseIds s) (categoryIds s)
          (events s ++ [ResponseVerified id]) (grants s).

(** The state a successful [updateCategoryStats] leaves, from the count and
    the sums its loop ends with. *)
Definition updated (s : State) (categoryId count sAge sIncome sSatisfaction : N) : State :=
  mkState (responses s)
          (<[categoryId := mkStats count sAge sIncome sSatisfaction]> (categoryStats s))
          (responseIds s) (categoryIds s)
          (events s ++ [StatsUpdated categoryId count]) (grants s).

(** The life of one record: it stays as it is, or its flag goes from
    [false] to [true] and nothing else moves. *)
Definition evolves (r r' : EncryptedResponse) : Prop :=
  r' = r \/ (isVerified r = false /\ r' = setVerified r true).

Definition isStatsUpdated (e : Event) : bool :=
  match e with
  | StatsUpdated _ _ => true
  | _ => false
  end.

(** The records the loop visits from index [i] on, [n] of them. *)
Definition ledgerFrom (s : State) (i : N) (n : nat) : list EncryptedResponse :=
  (fun k => responseAt s (i + N.of_nat k)) <$> seq 0 n.

(** ** What the aggregate is meant to be

    The verified responses of a category, scanned in id order, and the
    homomorphic sum of a list of handles: the words of the aggregate's
    description, against which the loop of [updateCategoryStats] is
    compared. *)
Definition ledger (s : State) : list EncryptedResponse :=
  (fun k => responseAt s (N.of_nat k)) <$> seq 0 (length (responseIds s)).

Definition verifiedIn (categoryId : N) (r : EncryptedResponse) : Prop :=
  publicCategory r = categoryId /\ isVerified r = true.

#[local] Instance verifiedIn_dec categoryId r : Decision (verifiedIn categoryId r).
Proof. unfold verifiedIn. apply _. Defined.

Definition verifiedOf (s : State) (categoryId : N) : list EncryptedResponse :=
  filter (verifiedIn categoryId) (ledger s).

Definition homSum `{FHELib} (hs : list N) : N := fold_left add hs 0.

(** The proof validator accepts the input: the library binds
    the input and the handle is initialised. *)
Definition accepted `{FHELib} (input : N) (proof : list Byte.byte) : bool :=
  match fromExternal input proof with
  | Some h => isInitialized h
  | None => false
  end.

(** The errors a rejected proof raises in [submitResponse]. *)
Definition invalidProof (e : error) : Prop :=
  e = FHERevert \/ e = Revert "Invalid age encryption"
  \/ e = Revert "Invalid income encryption"
  \/ e = Revert "Invalid satisfaction encryption".

(** ** The client decryption flow ([decryptData] of App.tsx)

    The page talks to its contract through [getBusinessData],
    [getEncryptedValue] and [verifyDecryption], and to the oracle through
    the [verifyDecryption] hook of the SDK. None of the four is declared in
    this repository ([SurveyZama] has [getResponse] and [verifyResponse]
    instead), so their outcomes are the surroundings of a run. *)

Module Client.

(** A JavaScript number, as far as this flow meets one: an integral value
    or [NaN]. *)
Inductive number :=
| Num (z : Z)
| NaN.

(** [Number(b)] for a bigint [b]: the nearest double, ties to even. Exact
    below [2^53]. *)
Definition roundDouble (z : Z) : Z :=
  let a := Z.abs z in
  if (a <? 2 ^ 53)%Z then z
  else
    let e := (Z.log2 a - 52)%Z in
    let q := (a / 2 ^ e)%Z in
    let r := (a mod 2 ^ e)%Z in
    let half := (2 ^ (e - 1))%Z in
    let q' := if (r <? half)%Z then q
              else if (half <? r)%Z then (q + 1)%Z
              else if Z.even q then q else (q + 1)%Z in
    (Z.sgn z * (q' * 2 ^ e))%Z.

(** [Number(v)] where [v] is a bigint or [undefined]. *)
Definition Number (v : option Z) : number :=
  match v with
  | Some z => Num (roundDouble z)
  | None => NaN
  end.

(** [x || 0] on a number. *)
Definition orZero (x : number) : number :=
  match x with
  | Num z => if (z =? 0)%Z then Num 0 else Num z
  | NaN => Num 0
  end.

(** [hay.includes(needle)]. *)
Fixpoint includes (needle hay : string) : bool :=
  String.prefix needle hay ||
  match hay with
  | EmptyString => false
  | String _ rest => includes needle rest
  end.

(** An awaited call returns or throws; [message] is [e.message], which
    may be absent. *)
Inductive js (A : Type) :=
| Returns (a : A)
| Throws (message : option string).
Arguments Returns {A} a.
Arguments Throws {A} message.

Inductive Status := StatusPending | StatusSuccess | StatusError.

(** What the flow does to its surroundings, in order. *)
Inductive Effect :=
| SetTransactionStatus (visible : bool) (status : Status) (message : string)
| HideStatusAfter (ms : N)          (* setTimeout(() => setTransactionStatus(hidden), ms) *)
| SetIsDecrypting (b : bool)
| GetContractReadOnly
| GetBusinessData (surveyId : string)
| GetContractWithSigner
| GetEncryptedValue (surveyId : string)
| VerifyDecryption (handles : list N) (contractAddress : string)  (* the oracle round trip and the on-chain write *)
| LoadData.

(** The record [getBusinessData] returns, as far as the flow reads it. *)
Record BusinessData := {
  isVerified : bool;
  decryptedValue : Z;
}.

(** [result.decryptionResult.clearValues]. *)
Record DecryptionOutcome := {
  clearValues : N -> option Z;
}.

Record ReadContract := {
  getBusinessData : string -> js BusinessData;
  getEncryptedValue : string -> js N;
}.

Record WriteContract := {
  verifyDecryptionTx : string -> string -> string -> js unit;
}.

(** The surroundings of one run of [decryptData]: the wallet state of
    [useAccount], the contract address held in the component, the outcome
    of the two contract getters and the [verifyDecryption] hook of the
    SDK, which takes the callback that writes on chain. *)
Record Env := {
  isConnected : bool;
  address : option string;
  contractAddress : string;
  getContractReadOnly : js (option ReadContract);
  getContractWithSigner : js (option WriteContract);
  verifyDecryption :
    list N -> string -> (string -> string -> js unit) -> js DecryptionOutcome;
}.

(** Effects so far, and how the computation ended. *)
Definition C (A : Type) : Type := (list Effect * js A)%type.

Definition cret {A} (a : A) : C A := ([], Returns a).

Definition cbind {A B} (m : C A) (k : A -> C B) : C B :=
  match m with
  | (l, Returns a) => let '(l', r) := k a in (l ++ l', r)
  | (l, Throws msg) => (l, Throws msg)
  end.

Definition effect (e : Effect) : C unit := ([e], Returns tt).

(** [await f()] where the call is visible as [e]. *)
Definition await {A} (e : Effect) (outcome : js A) : C A := ([e], outcome).

Declare Scope client_scope.
Delimit Scope client_scope with client.
Notation "x <- m ;; k" := (cbind m (fun x => k))
  (at level 100, m at next level, right associativity) : client_scope.
Notation "m ;; k" := (cbind m (fun _ => k))
  (at level 100, right associativity) : client_scope.
Local Open Scope client_scope.

(** [!address]. *)
Definition falsy (a : option string) : bool :=
  match a with
  | None => true
  | Some EmptyString => true
  | Some _ => false
  end.

(** The body of the [try] block. *)
Definition decryptData_try (env : Env) (surveyId : string) : C (option number) :=
  contractRead <- await GetContractReadOnly (getContractReadOnly env) ;;
  match contractRead with
  | None => cret None
  | Some contractRead =>
      surveyData <- await (GetBusinessData surveyId) (getBusinessData contractRead surveyId) ;;
      if isVerified surveyData then
        effect (SetTransactionStatus true StatusSuccess "Data already verified on-chain") ;;
        effect (HideStatusAfter 2000) ;;
        cret (Some (orZero (Number (Some (decryptedValue surveyData)))))
      else
        contractWrite <- await GetContractWithSigner (getContractWithSigner env) ;;
        match contractWrite with
        | None => cret None
        | Some contractWrite =>
            encryptedValueHandle <-
              await (GetEncryptedValue surveyId) (getEncryptedValue contractRead surveyId) ;;
            result <-
              await (VerifyDecryption [encryptedValueHandle] (contractAddress env))
                    (verifyDecryption env [encryptedValueHandle] (contractAddress env)
                       (verifyDecryptionTx contractWrite surveyId)) ;;
            effect (SetTransactionStatus true StatusPending "Verifying decryption on-chain...") ;;
            let clearValue := clearValues result encryptedValueHandle in
            effect LoadData ;;
            effect (SetTransactionStatus true StatusSuccess
                      "Data decrypted and verified successfully!") ;;
            effect (HideStatusAfter 2000) ;;
            cret (Some (Number clearValue))
        end
  end.

(** The [catch] block. *)
Definition decryptData_catch (message : option string) : C (option number) :=
  if match message with
     | Some m => includes "Data already verified" m
     | None => false
     end
  then
    effect (SetTransactionStatus true StatusSuccess "Data is already verified on-chain") ;;
    effect (HideStatusAfter 2000) ;;
    effect LoadData ;;
    cret None
  else
    effect (SetTransactionStatus true StatusError
              ("Decryption failed: " ++
               match message with
               | Some EmptyString | None => "Unknown error"
               | Some m => m
               end)) ;;
    effect (HideStatusAfter 3000) ;;
    cret None.

(** [decryptData]: the value the promise resolves to ([None] is [null])
    and the effects, in order. *)
Definition decryptData (env : Env) (surveyId : string) : list Effect * option number :=
  if negb (isConnected env) || falsy (address env) then
    ([SetTransactionStatus true StatusError "Please connect wallet first";
      HideStatusAfter 3000], None)
  else
    let '(l, r) :=
      match decryptData_try env surveyId with
      | (l, Returns v) => (l, v)
      | (l, Throws msg) =>
          match decryptData_catch msg with
          | (l', Returns v) => (l ++ l', v)
          | (l', Throws _) => (l ++ l', None)
          end
      end in
    ([SetIsDecrypting true] ++ l ++ [SetIsDecrypting false], r).

(** Did the run reach the oracle or ask for a signer to write on chain? *)
Definition touchesOracle (e : Effect) : bool :=
  match e with
  | VerifyDecryption _ _ | GetContractWithSigner | GetEncryptedValue _ => true
  | _ => false
  end.

(** Surroundings used below. In [seesVerified] the record read back is
    already verified and holds the value 8. In [losesRace] the record
    read back is not yet verified, and the on-chain write then reverts
    with the message of the contract's guard, which the hook passes on. *)
Definition seesVerified : Env := {|
  isConnected := true;
  address := Some "0xA11CE";
  contractAddress := "0x5EED";
  getContractReadOnly := Returns (Some {|
    getBusinessData _ := Returns {| isVerified := true; decryptedValue := 8 |};
    getEncryptedValue _ := Returns 9%N |});
  getContractWithSigner := Returns None;
  verifyDecryption _ _ _ := Throws None;
|}.

Definition losesRace : Env := {|
  isConnected := true;
  address := Some "0xA11CE";
  contractAddress := "0x5EED";
  getContractReadOnly := Returns (Some {|
    getBusinessData _ := Returns {| isVerified := false; decryptedValue := 0 |};
    getEncryptedValue _ := Returns 9%N |});
  getContractWithSigner := Returns (Some {|
    verifyDecryptionTx _ _ _ :=
      Throws (Some "execution reverted: Response already verified") |});
  verifyDecryption _ _ write :=
    match write "0x08" "0xC0FFEE" with
    | Returns _ => Returns {| clearValues _ := Some 8%Z |}
    | Throws m => Throws m
    end;
|}.

End Client.

(** ** Readings of the log, of the grants and of a run *)

(** The grants [submitResponse] makes for the record it stores. *)
Definition sixGrants (r : EncryptedResponse) : list Grant :=
  [AllowThis (encryptedAge r); AllowThis (encryptedIncome r);
   AllowThis (encryptedSatisfaction r);
   PubliclyDecryptable (encryptedAge r); PubliclyDecryptable (encryptedIncome r);
   PubliclyDecryptable (encryptedSatisfaction r)].

(** The [ResponseSubmitted] and the [ResponseVerified] events of a log, in
    order. *)
Definition submittedLog (es : list Event) : list (N * N) :=
  omap (fun e => match e with
                 | ResponseSubmitted id cat => Some (id, cat)
                 | _ => None
                 end) es.

Definition verifiedLog (es : list Event) : list N :=
  omap (fun e => match e with
                 | ResponseVerified id => Some id
                 | _ => None
                 end) es.

(** A call of [submitResponse] whose three inputs the validator accepts. *)
Definition acceptedSubmit `{FHELib} (c : Call) : bool :=
  match c with
  | CallSubmit _ ea pa ei pi es ps _ => accepted ea pa && accepted ei pi && accepted es ps
  | _ => false
  end.

(** The three signature checks of [verifyResponse] on a record. *)
Definition signaturesPass `{FHELib} (r : EncryptedResponse)
    (ageProof incomeProof satisfactionProof : list Byte.byte) : bool :=
  let cts := [toBytes32 (encryptedAge r); toBytes32 (encryptedIncome r);
              toBytes32 (encryptedSatisfaction r)] in
  checkSignatures cts [] ageProof && checkSignatures cts [] incomeProof
  && checkSignatures cts [] satisfactionProof.

(** The plaintext behind a handle of the transparent instance. *)
Definition plainDec (h : N) : N := if h =? 0 then 0 else h - 1.

(** ** The other flows of the page (App.tsx)

    [handleChange] of the creation form, [createSurvey], [loadData] and
    [testAvailability], in the manner of [decryptData]: the awaited calls
    are the surroundings of a run, a run is the list of its effects in
    order. [calculateStats], which [loadData] calls, appears as an effect
    carrying the list it is given. *)

Module Page.
Import Client.

(** *** The creation form *)

(** [/[^\d]/]: [\d] is an ASCII decimal digit. A string is the sequence of
    its UTF-8 bytes here and of its UTF-16 units in the page; a digit is one
    byte and one unit, and no byte of a longer character is a digit, so
    dropping the other bytes is dropping the other units. *)
Definition isDigit (c : Ascii.ascii) : bool :=
  (48 <=? Ascii.N_of_ascii c) && (Ascii.N_of_ascii c <=? 57).

(** [value.replace(/[^\d]/g, '')]. *)
Fixpoint digitsOnly (value : string) : string :=
  match value with
  | EmptyString => EmptyString
  | String c rest => if isDigit c then String c (digitsOnly rest) else digitsOnly rest
  end.

(** [handleChange]: the object handed to [setSurveyData] for a change event
    of the input called [name] holding [value]; [surveyData] is a plain
    object, read here as a map from its keys. *)
Definition handleChange (surveyData : gmap string string) (name value : string)
    : gmap string string :=
  if decide (name = "score") then
    let intValue := digitsOnly value in
    <[name := intValue]> surveyData
  else
    <[name := value]> surveyData.

(** The initial value of [newSurveyData], to which [createSurvey] resets
    it. *)
Definition emptyForm : gmap string string :=
  <["name" := ""]> (<["score" := ""]> (<["category" := "商业"]>
    (<["description" := ""]> ∅))).

Fixpoint allDigits (s : string) : bool :=
  match s with
  | EmptyString => true
  | String c rest => isDigit c && allDigits rest
  end.

(** *** Data *)

(** The struct [getBusinessData] returns, as far as [loadData] reads it;
    the integers are bigints. *)
Record BusinessRecord := {
  bdName : string;
  bdPublicValue1 : Z;
  bdPublicValue2 : Z;
  bdDescription : string;
  bdCreator : string;
  bdTimestamp : Z;
  bdIsVerified : bool;
  bdDecryptedValue : Z;
}.

(** [interface SurveyData]; [encryptedValue] is [null] when [None]. *)
Record SurveyData := {
  id : string;
  name : string;
  encryptedValue : option string;
  publicValue1 : number;
  publicValue2 : number;
  description : string;
  creator : string;
  timestamp : number;
  isVerified : bool;
  decryptedValue : number;
  category : string;
}.

Record ReadContract := {
  getAllBusinessIds : js (list string);
  getBusinessData : string -> js BusinessRecord;
  isAvailable : js bool;
}.

(** [{ encryptedData, proof }] of the [encrypt] hook. *)
Record EncryptedResult := {
  encryptedData : string;
  proof : string;
}.

Section Flows.

(** The score sent along: a JavaScript number, of which the flow only asks
    whether it is truthy. [parseInt] is the builtin and [toLowerCase] the
    string method. *)
Context {score : Type}.
Variable zeroScore : score.
Variable truthyScore : score -> bool.
Variable parseInt : string -> score.
Variable toLowerCase : string -> string.

Inductive Effect :=
| SetTransactionStatus (visible : bool) (status : Status) (message : string)
| HideStatusAfter (ms : N)
| SetIsRefreshing (b : bool)
| SetCreatingSurvey (b : bool)
| GetContractReadOnly
| GetContractWithSigner
| GetAllBusinessIds
| GetBusinessData (businessId : string)
| ConsoleError (label : string)
| SetSurveys (surveysList : list SurveyData)
| CalculateStats (surveysList : list SurveyData)
| SetUserHistory (userSurveys : list SurveyData)
| Encrypt (contractAddress user : string) (value : score)
| CreateBusinessData (businessId : string) (name : option string)
    (encryptedData proof : string) (publicValue1 publicValue2 : score)
    (description : option string)
| TxWait
| LoadData
| SetShowCreateModal (b : bool)
| SetNewSurveyData (data : gmap string string)
| IsAvailable.

(** [tx.wait()]. *)
Record Tx := {
  wait : js unit;
}.

Record WriteContract := {
  createBusinessData :
    string -> option string -> string -> string -> score -> score -> option string -> js Tx;
}.

Record Env := {
  isConnected : bool;
  address : option string;
  contractAddress : string;
  now : N;                                  (* Date.now() *)
  newSurveyData : gmap string string;
  getContractReadOnly : js (option ReadContract);
  getContractWithSigner : js (option WriteContract);
  encrypt : string -> string -> score -> js EncryptedResult;
}.

Definition P (A : Type) : Type := (list Effect * js A)%type.

Definition pret {A} (a : A) : P A := ([], Returns a).

Definition pbind {A B} (m : P A) (k : A -> P B) : P B :=
  match m with
  | (l, Returns a) => let '(l', r) := k a in (l ++ l', r)
  | (l, Throws msg) => (l, Throws msg)
  end.

Definition effect (e : Effect) : P unit := ([e], Returns tt).

Definition effects (l : list Effect) : P unit := (l, Returns tt).

Definition await {A} (e : Effect) (outcome : js A) : P A := ([e], outcome).

Definition throwError {A} (message : string) : P A := ([], Throws (Some message)).

Declare Scope page_scope.
Delimit Scope page_scope with page.
Notation "x <- m ;; k" := (pbind m (fun x => k))
  (at level 100, m at next level, right associativity) : page_scope.
Notation "m ;; k" := (pbind m (fun _ => k))
  (at level 100, right associativity) : page_scope.
Local Open Scope page_scope.

(** [x || 0] on the score. *)
Definition orZeroScore (x : score) : score := if truthyScore x then x else zeroScore.

(** [e.message || "Unknown error"]. *)
Definition messageOr (message : option string) : string :=
  match message with
  | Some EmptyString | None => "Unknown error"
  | Some m => m
  end.

(** [e.message?.includes(needle)], as a condition. *)
Definition messageIncludes (needle : string) (message : option string) : bool :=
  match message with
  | Some m => includes needle m
  | None => false
  end.

(** *** [createSurvey] *)

(** The body of the [try] block. [parseInt] of a missing field is
    [parseInt] of the string "undefined". *)
Definition createSurvey_try (env : Env) (user : string) : P unit :=
  contract <- await GetContractWithSigner (getContractWithSigner env) ;;
  match contract with
  | None => throwError "Failed to get contract with signer"
  | Some contract =>
      let scoreValue :=
        orZeroScore (parseInt (default "undefined" (newSurveyData env !! "score"))) in
      let businessId := "survey-" +:+ pretty (now env) in
      encryptedResult <-
        await (Encrypt (contractAddress env) user scoreValue)
              (encrypt env (contractAddress env) user scoreValue) ;;
      tx <-
        (let call := createBusinessData contract businessId
                       (newSurveyData env !! "name")
                       (encryptedData encryptedResult) (proof encryptedResult)
                       scoreValue zeroScore
                       (newSurveyData env !! "description") in
         await (CreateBusinessData businessId (newSurveyData env !! "name")
                  (encryptedData encryptedResult) (proof encryptedResult)
                  scoreValue zeroScore (newSurveyData env !! "description"))
               call) ;;
      effect (SetTransactionStatus true StatusPending
                "Waiting for transaction confirmation...") ;;
      await TxWait (wait tx) ;;
      effect (SetTransactionStatus true StatusSuccess "Survey submitted successfully!") ;;
      effect (HideStatusAfter 2000) ;;
      effect LoadData ;;
      effect (SetShowCreateModal false) ;;
      effect (SetNewSurveyData emptyForm)
  end.

(** The [catch] block. *)
Definition createSurvey_catch (message : option string) : list Effect :=
  let errorMessage :=
    if messageIncludes "user rejected transaction" message
    then "Transaction rejected by user"
    else "Submission failed: " +:+ messageOr message in
  [SetTransactionStatus true StatusError errorMessage; HideStatusAfter 3000].

Definition createSurvey (env : Env) : list Effect :=
  match isConnected env, address env with
  | true, Some (String c rest as user) =>
      [SetCreatingSurvey true;
       SetTransactionStatus true StatusPending "Creating survey with Zama FHE..."]
      ++ (match createSurvey_try env user with
          | (l, Returns _) => l
          | (l, Throws message) => l ++ createSurvey_catch message
          end)
      ++ [SetCreatingSurvey false]
  | _, _ =>
      [SetTransactionStatus true StatusError "Please connect wallet first";
       HideStatusAfter 3000]
  end.

(** *** [loadData] *)

(** The object built for one id. *)
Definition toSurvey (businessId : string) (businessData : BusinessRecord) : SurveyData := {|
  id := businessId;
  name := bdName businessData;
  encryptedValue := None;
  publicValue1 := orZero (Number (Some (bdPublicValue1 businessData)));
  publicValue2 := orZero (Number (Some (bdPublicValue2 businessData)));
  description := bdDescription businessData;
  creator := bdCreator businessData;
  timestamp := Number (Some (bdTimestamp businessData));
  isVerified := bdIsVerified businessData;
  decryptedValue := orZero (Number (Some (bdDecryptedValue businessData)));
  category := "商业";
|}.

(** The [for ... of] loop with its inner [try]: the ids left to visit and
    the list pushed to so far. *)
Fixpoint loadLoop (contract : ReadContract) (businessIds : list string)
    (surveysList : list SurveyData) : list Effect * list SurveyData :=
  match businessIds with
  | [] => ([], surveysList)
  | businessId :: rest =>
      match getBusinessData contract businessId with
      | Returns businessData =>
          let survey := toSurvey businessId businessData in
          let '(l, r) := loadLoop contract rest (surveysList ++ [survey]) in
          (GetBusinessData businessId :: l, r)
      | Throws _ =>
          let '(l, r) := loadLoop contract rest surveysList in
          (GetBusinessData businessId :: ConsoleError "Error loading survey data:" :: l, r)
      end
  end.

(** [s.creator.toLowerCase() === address.toLowerCase()]. *)
Definition ownedBy (user : string) (s : SurveyData) : bool :=
  if decide (toLowerCase (creator s) = toLowerCase user) then true else false.

Definition loadData_try (env : Env) : P unit :=
  contract <- await GetContractReadOnly (getContractReadOnly env) ;;
  match contract with
  | None => pret tt
  | Some contract =>
      businessIds <- await GetAllBusinessIds (getAllBusinessIds contract) ;;
      let '(l, surveysList) := loadLoop contract businessIds [] in
      effects l ;;
      effect (SetSurveys surveysList) ;;
      effect (CalculateStats surveysList) ;;
      match address env with
      | Some (String c rest as user) =>
          let userSurveys := List.filter (ownedBy user) surveysList in
          effect (SetUserHistory userSurveys)
      | _ => pret tt
      end
  end.

Definition loadData (env : Env) : list Effect :=
  if negb (isConnected env) then []
  else
    [SetIsRefreshing true]
    ++ (match loadData_try env with
        | (l, Returns _) => l
        | (l, Throws _) =>
            l ++ [SetTransactionStatus true StatusError "Failed to load data";
                  HideStatusAfter 3000]
        end)
    ++ [SetIsRefreshing false].

(** *** [testAvailability] *)

Definition testAvailability_try (env : Env) : P unit :=
  contract <- await GetContractReadOnly (getContractReadOnly env) ;;
  match contract with
  | None => pret tt
  | Some contract =>
      isAvailable <- await IsAvailable (isAvailable contract) ;;
      effect (SetTransactionStatus true StatusSuccess "Contract is available and working!") ;;
      effect (HideStatusAfter 2000)
  end.

Definition testAvailability (env : Env) : list Effect :=
  match testAvailability_try env with
  | (l, Returns _) => l
  | (l, Throws _) =>
      l ++ [SetTransactionStatus true StatusError "Contract test failed";
            HideStatusAfter 3000]
  end.

(** The surveys [loadData] is meant to list: one per id whose read
    returned, in the order of the ids. *)
Definition readable (contract : ReadContract) (businessIds : list string)
    : list SurveyData :=
  omap (fun businessId =>
          match getBusinessData contract businessId with
          | Returns businessData => Some (toSurvey businessId businessData)
          | Throws _ => None
          end) businessIds.

Definition isConsoleError (e : Effect) : bool :=
  match e with
  | ConsoleError _ => true
  | _ => false
  end.

Definition isThrow {A} (r : js A) : bool :=
  match r with
  | Throws _ => true
  | Returns _ => false
  end.

End Flows.

End Page.

(** Surroundings used below for the flows of the page: the score as a
    number of [Client], a [parseInt] that reads a non-empty string of
    digits in base ten, a [toLowerCase] on the letters A to Z. *)
Definition truthyNumber (x : Client.number) : bool :=
  match x with
  | Client.Num z => negb (z =? 0)%Z
  | Client.NaN => false
  end.

Fixpoint decimal (acc : Z) (s : string) : Z :=
  match s with
  | EmptyString => acc
  | String c rest => decimal (10 * acc + (Z.of_N (Ascii.N_of_ascii c) - 48))%Z rest
  end.

Definition parseDigits (s : string) : Client.number :=
  match s with
  | EmptyString => Client.NaN
  | _ => if Page.allDigits s then Client.Num (decimal 0 s) else Client.NaN
  end.

Definition lowerLetter (c : Ascii.ascii) : Ascii.ascii :=
  let n := Ascii.N_of_ascii c in
  if (65 <=? n) && (n <=? 90) then Ascii.ascii_of_N (n + 32) else c.

Fixpoint lowerLetters (s : string) : string :=
  match s with
  | EmptyString => EmptyString
  | String c rest => String (lowerLetter c) (lowerLetters rest)
  end.

(** The form after the name "Coffee", the score typed as "8a" and a
    description are entered. *)
Definition formFilled : gmap string string :=
  fold_left (fun d '(n, v) => Page.handleChange d n v)
            [("name", "Coffee"); ("score", "8a"); ("description", "fine")]
            Page.emptyForm.

Definition signerOk : Page.WriteContract (score := Client.number) := {|
  Page.createBusinessData _ _ _ _ _ _ _ :=
    Client.Returns {| Page.wait := Client.Returns tt |};
|}.


Definition recordOf (who : string) : Page.BusinessRecord := {|
  Page.bdName := "Coffee";
  Page.bdPublicValue1 := 8;
  Page.bdPublicValue2 := 0;
  Page.bdDescription := "fine";
  Page.bdCreator := who;
  Page.bdTimestamp := 1700000000;
  Page.bdIsVerified := false;
  Page.bdDecryptedValue := 0;
|}.

(** A contract with three ids, the read of the second of which fails. *)
Definition readerThree : Page.ReadContract := {|
  Page.getAllBusinessIds := Client.Returns ["a"; "b"; "c"];
  Page.getBusinessData businessId :=
    if decide (businessId = "a") then Client.Returns (recordOf "0xA11CE")
    else if decide (businessId = "c") then Client.Returns (recordOf "0xB0B")
    else Client.Throws (Some "call revert exception");
  Page.isAvailable := Client.Returns false;
|}.

Definition pageEnv (signer : Page.WriteContract (score := Client.number))
    : Page.Env (score := Client.number) := {|
  Page.isConnected := true;
  Page.address := Some "0xa11ce";
  Page.contractAddress := "0x5EED";
  Page.now := 1700000000000;
  Page.newSurveyData := formFilled;
  Page.getContractReadOnly := Client.Returns (Some readerThree);
  Page.getContractWithSigner := Client.Returns (Some signer);
  Page.encrypt _ _ _ := Client.Returns {| Page.encryptedData := "0xE8"; Page.proof := "0xF0" |};
|}.

(** * Properties *)

(** ** What each transaction does to the state *)

Section Transactions.
Context `{FHE : FHELib}.

Lemma submitResponse_Ok cat ea pa ei pi es ps ts s u s' :
  submitResponse cat ea pa ei pi es ps ts s = Ok (u, s') ->
  exists hA hI hS,
    fromExternal ea pa = Some hA /\ isInitialized hA = true /\
    fromExternal ei pi = Some hI /\ isInitialized hI = true /\
    fromExternal es ps = Some hS /\ isInitialized hS = true /\
    s' = submitted s cat hA hI hS ts.
Proof.
  unfold submitResponse, bind, gets, fromExternalM, require, ret, throw.
  destruct (fromExternal ea pa) as [hA|] eqn:EA; [|discriminate].
  destruct (isInitialized hA) eqn:IA; [|discriminate].
  destruct (fromExternal ei pi) as [hI|] eqn:EI; [|discriminate].
  destruct (isInitialized hI) eqn:II; [|discriminate].
  destruct (fromExternal es ps) as [hS|] eqn:ES; [|discriminate].
  destruct (isInitialized hS) eqn:IS; [|discriminate].
  unfold modify, grant, emit, setResponse, pushResponseId, pushCategoryId,
    responseAt, statsAt. cbn. rewrite lookup_insert_eq. cbn.
  intros Heq. exists hA, hI, hS. repeat split; try done.
  unfold submitted, statsAt.
  destruct (totalResponses (default zeroStats (categoryStats s !! cat)) =? 0);
    cbn in Heq; inversion Heq; subst; cbn; rewrite <- ?app_assoc; reflexivity.
Qed.

Lemma submitResponse_accepts cat ea pa ei pi es ps ts s hA hI hS :
  fromExternal ea pa = Some hA -> isInitialized hA = true ->
  fromExternal ei pi = Some hI -> isInitialized hI = true ->
  fromExternal es ps = Some hS -> isInitialized hS = true ->
  submitResponse cat ea pa ei pi es ps ts s = Ok (tt, submitted s cat hA hI hS ts).
Proof.
  intros EA IA EI II ES IS.
  unfold submitResponse, bind, gets, fromExternalM, require, ret, throw.
  rewrite EA, IA, EI, II, ES, IS.
  unfold modify, grant, emit, setResponse, pushResponseId, pushCategoryId,
    responseAt, statsAt. cbn. rewrite lookup_insert_eq. cbn.
  unfold submitted, statsAt.
  destruct (totalResponses (default zeroStats (categoryStats s !! cat)) =? 0);
    cbn; rewrite <- ?app_assoc; reflexivity.
Qed.

Lemma verifyResponse_Ok id pa pi ps s u s' :
  verifyResponse id pa pi ps s = Ok (u, s') ->
  id < responseCount s /\ isVerified (responseAt s id) = false /\ s' = verified s id.
Proof.
  unfold verifyResponse, bind, gets, require, checkSignaturesM, ret, throw.
  destruct (id <? responseCount s) eqn:Hlt; [|discriminate].
  destruct (isVerified (responseAt s id)) eqn:Hv; [discriminate|]. cbn.
  repeat (match goal with |- context [checkSignatures ?a ?b ?c] =>
            destruct (checkSignatures a b c); [|discriminate] end).
  cbn. intros Heq; inversion Heq; subst.
  apply N.ltb_lt in Hlt. done.
Qed.

Lemma verifyResponse_accepts id pa pi ps s :
  id < responseCount s ->
  isVerified (responseAt s id) = false ->
  (let cts := [toBytes32 (encryptedAge (responseAt s id));
               toBytes32 (encryptedIncome (responseAt s id));
               toBytes32 (encryptedSatisfaction (responseAt s id))] in
   checkSignatures cts [] pa = true /\ checkSignatures cts [] pi = true /\
   checkSignatures cts [] ps = true) ->
  verifyResponse id pa pi ps s = Ok (tt, verified s id).
Proof.
  intros Hlt Hv (Ha & Hi & Hs).
  unfold verifyResponse, bind, gets, require, checkSignaturesM, ret, throw.
  apply N.ltb_lt in Hlt. rewrite Hlt, Hv. cbn. rewrite Ha, Hi, Hs. reflexivity.
Qed.

Lemma verifyResponse_already id pa pi ps s :
  id < responseCount s ->
  isVerified (responseAt s id) = true ->
  verifyResponse id pa pi ps s = Err (Revert "Response already verified").
Proof.
  intros Hlt Hv.
  unfold verifyResponse, bind, gets, require, ret, throw.
  apply N.ltb_lt in Hlt. rewrite Hlt, Hv. reflexivity.
Qed.

(** The loop reads the storage and leaves it as it is. *)
Lemma statsLoop_state cat n : forall i acc s acc' s',
  statsLoop cat n i acc s = Ok (acc', s') -> s' = s.
Proof.
  induction n as [|n IH]; intros i acc s acc' s'; cbn.
  - unfold ret. congruence.
  - unfold bind, gets, checkedInc, ret, throw.
    destruct ((publicCategory (responseAt s i) =? cat) && isVerified (responseAt s i)).
    + destruct (accCount acc <? uint32_max); [|discriminate]. apply IH.
    + apply IH.
Qed.

Lemma updateCategoryStats_Ok cat s u s' :
  updateCategoryStats cat s = Ok (u, s') ->
  0 < totalResponses (statsAt s cat) /\
  exists acc,
    statsLoop cat (length (responseIds s)) 0 (mkAcc 0 0 0 0) s = Ok (acc, s) /\
    s' = updated s cat (accCount acc) (accAge acc) (accIncome acc) (accSatisfaction acc).
Proof.
  unfold updateCategoryStats, bind, gets, require, ret, throw.
  destruct (0 <? totalResponses (statsAt s cat)) eqn:Hpos; [|discriminate].
  destruct (statsLoop cat (length (responseIds s)) 0 (mkAcc 0 0 0 0) s)
    as [[acc s1]|e] eqn:Hloop; [|discriminate].
  pose proof (statsLoop_state _ _ _ _ _ _ _ Hloop) as ->.
  cbn. intros Heq; inversion Heq; subst.
  split; [by apply N.ltb_lt|]. exists acc. done.
Qed.

Lemma updateCategoryStats_empty cat s :
  totalResponses (statsAt s cat) = 0 ->
  updateCategoryStats cat s = Err (Revert "Category has no responses").
Proof.
  intros Hz. unfold updateCategoryStats, bind, gets, require, ret, throw.
  rewrite Hz. reflexivity.
Qed.

(** A transaction reverts and leaves the state, or is one of the three
    writes. *)
Lemma transact_cases c s :
  transact c s = s \/
  (exists cat hA hI hS ts, transact c s = submitted s cat hA hI hS ts) \/
  (exists id, id < responseCount s /\ isVerified (responseAt s id) = false /\
              transact c s = verified s id) \/
  (exists cat n a i t, 0 < totalResponses (statsAt s cat) /\
                       transact c s = updated s cat n a i t).
Proof.
  unfold transact. destruct (run c s) as [[u s']|e] eqn:Hrun; [|by left].
  right. destruct c; cbn in Hrun.
  - left. apply submitResponse_Ok in Hrun as (hA & hI & hS & _ & _ & _ & _ & _ & _ & ->).
    eauto 10.
  - right; left. apply verifyResponse_Ok in Hrun as (? & ? & ->). eauto.
  - right; right. apply updateCategoryStats_Ok in Hrun as (? & acc & _ & ->). eauto 10.
Qed.

(** The statistics cache is never written: [updateCategoryStats] is its
    only writer and needs an entry already there. *)
Lemma reachable_stats_empty s : reachable s -> categoryStats s = ∅.
Proof.
  induction 1 as [|s c Hs IH]; [done|].
  destruct (transact_cases c s) as [->|[(cat & hA & hI & hS & ts & ->)|
    [(id & _ & _ & ->)|(cat & n & a & i & t & Hpos & _)]]]; try done.
  unfold statsAt in Hpos. rewrite IH, lookup_empty in Hpos. cbn in Hpos. lia.
Qed.

Lemma reachable_statsAt s cat : reachable s -> statsAt s cat = zeroStats.
Proof.
  intros Hs. unfold statsAt. by rewrite (reachable_stats_empty s Hs), lookup_empty.
Qed.

End Transactions.

(** ** Reachable states *)

Section Reachable.
Context `{FHE : FHELib}.

Lemma reachable_transactAll cs : forall s, reachable s -> reachable (transactAll cs s).
Proof.
  induction cs as [|c cs IH]; intros s Hs; cbn; [done|].
  apply IH. by constructor.
Qed.

Lemma reachable_afterCalls cs : reachable (afterCalls cs).
Proof. apply reachable_transactAll. constructor. Qed.

Lemma reachable_no_StatsUpdated s :
  reachable s -> forallb (fun e => negb (isStatsUpdated e)) (events s) = true.
Proof.
  induction 1 as [|s c Hs IH]; [done|].
  destruct (transact_cases c s) as [->|[(cat & hA & hI & hS & ts & ->)|
    [(id & _ & _ & ->)|(cat & n & a & i & t & Hpos & _)]]]; try done.
  - cbn. rewrite forallb_app, IH. done.
  - cbn. rewrite forallb_app, IH. done.
  - rewrite (reachable_statsAt s cat Hs) in Hpos. cbn in Hpos. lia.
Qed.

(** Ids are handed out in sequence. *)
Lemma reachable_responseIds s :
  reachable s -> responseIds s = N.of_nat <$> seq 0 (length (responseIds s)).
Proof.
  induction 1 as [|s c Hs IH]; [done|].
  destruct (transact_cases c s) as [->|[(cat & hA & hI & hS & ts & ->)|
    [(id & _ & _ & ->)|(cat & n & a & i & t & Hpos & ->)]]]; try done.
  cbn. rewrite length_app. cbn. rewrite Nat.add_1_r, seq_S, fmap_app.
  cbn. unfold responseCount. by rewrite <- IH.
Qed.

Lemma fmap_seq_ext {B} (f g : nat -> B) n :
  (forall k, (k < n)%nat -> f k = g k) -> f <$> seq 0 n = g <$> seq 0 n.
Proof.
  intros Hfg. apply list_fmap_ext. intros i x Hx.
  apply lookup_seq in Hx as [-> Hlt]. by apply Hfg.
Qed.

(** Each submission appends its category to the index. *)
Lemma reachable_categoryIds s :
  reachable s -> categoryIds s = publicCategory <$> ledger s.
Proof.
  induction 1 as [|s c Hs IH]; [done|].
  destruct (transact_cases c s) as [->|[(cat & hA & hI & hS & ts & ->)|
    [(id & Hlt & _ & ->)|(cat & n & a & i & t & Hpos & _)]]]; try done.
  - unfold ledger. cbn. rewrite (reachable_statsAt s cat Hs). cbn.
    rewrite length_app. cbn. rewrite Nat.add_1_r, seq_S, !fmap_app. cbn.
    unfold responseAt at 2. cbn. unfold responseCount.
    rewrite lookup_insert_eq. cbn. f_equal.
    rewrite IH. unfold ledger. rewrite <- !list_fmap_compose.
    apply fmap_seq_ext. intros k Hk. cbn.
    unfold responseAt. cbn.
    rewrite lookup_insert_ne; [done|unfold responseCount; lia].
  - unfold ledger. cbn. rewrite IH. unfold ledger. rewrite <- !list_fmap_compose.
    apply fmap_seq_ext. intros k Hk. cbn. unfold responseAt. cbn.
    destruct (decide (id = N.of_nat k)) as [->|Hne].
    + rewrite lookup_insert_eq. done.
    + rewrite lookup_insert_ne; done.
  - rewrite (reachable_statsAt s cat Hs) in Hpos. cbn in Hpos. lia.
Qed.

End Reachable.

(** ** The statistics cache *)

(** C4. In every state reachable by calls of [submitResponse],
    [verifyResponse] and [updateCategoryStats], the cached [totalResponses]
    of every category is zero; hence every call of [updateCategoryStats]
    reverts on its precondition and no [StatsUpdated] event is ever in the
    log. *)
Theorem stats_cache_stays_zero `{FHE : FHELib} (s : State) :
  reachable s ->
  (forall c, totalResponses (statsAt s c) = 0) /\
  (forall c, updateCategoryStats c s = Err (Revert "Category has no responses")) /\
  (forall c n, StatsUpdated c n ∉ events s).
Proof.
  intros Hs. split; [|split].
  - intros c. by rewrite (reachable_statsAt s c Hs).
  - intros c. apply updateCategoryStats_empty. by rewrite (reachable_statsAt s c Hs).
  - intros c n Hin.
    pose proof (reachable_no_StatsUpdated s Hs) as Hall.
    rewrite forallb_forall in Hall.
    apply list_elem_of_In, Hall in Hin. discriminate.
Qed.

Lemma stats_cache_stays_zero_witness :
  let s := afterCalls [submitA; verifyA; CallUpdate 7] in
  reachable s /\
  (forall c, totalResponses (statsAt s c) = 0) /\
  (forall c, updateCategoryStats c s = Err (Revert "Category has no responses")) /\
  (forall c n, StatsUpdated c n ∉ events s).
Proof.
  assert (Hr : reachable (afterCalls [submitA; verifyA; CallUpdate 7])).
  { exact (reachable_step _ _
             (reachable_step _ _ (reachable_step _ _ reachable_init))). }
  split; [exact Hr|].
  exact (stats_cache_stays_zero _ Hr).
Defined.

(** C3. The run: a response of category 7 is submitted and verified, then
    the statistics of category 7 are recomputed. The category has a
    response, and the call reverts with "Category has no responses". *)
Theorem recompute_reverts_with_responses :
  let s := afterCalls [submitA; verifyA] in
  responseIds s = [0] /\
  publicCategory (responseAt s 0) = 7 /\
  isVerified (responseAt s 0) = true /\
  updateCategoryStats 7 s = Err (Revert "Category has no responses").
Proof. vm_compute. done. Qed.

(** C5. The run: two responses of category 7 are submitted. The category
    index lists 7 twice. *)
Theorem category_index_repeats :
  let s := afterCalls [submitA; submitB] in
  responseIds s = [0; 1] /\
  getAllCategoryIds s = Ok ([7; 7], s) /\
  ~ NoDup (categoryIds s).
Proof.
  vm_compute. split; [done|]. split; [done|].
  intros Hnd. apply NoDup_cons in Hnd as [Hnotin _].
  apply Hnotin. left.
Qed.

(** C10. [getCategoryStats] has no [require]: on every state and for every
    category it returns and leaves the state; for a category with no entry
    in the cache, and in a reachable state for a category outside the
    index, the value is the zero statistics. *)
Theorem getCategoryStats_total `{FHE : FHELib} (s : State) (c : N) :
  (exists st, getCategoryStats c s = Ok (st, s)) /\
  (categoryStats s !! c = None -> getCategoryStats c s = Ok (zeroStats, s)) /\
  (reachable s -> c ∉ categoryIds s -> getCategoryStats c s = Ok (mkStats 0 0 0 0, s)).
Proof.
  unfold getCategoryStats, gets. split; [eauto|]. split.
  - intros Hnone. unfold statsAt. by rewrite Hnone.
  - intros Hs _. by rewrite (reachable_statsAt s c Hs).
Qed.

Lemma getCategoryStats_total_witness :
  let s := afterCalls [submitA; verifyA] in
  categoryStats s !! 8 = None /\ reachable s /\ (8 ∉ categoryIds s) /\
  getCategoryStats 8 s = Ok (mkStats 0 0 0 0, s).
Proof.
  assert (Hr : reachable (afterCalls [submitA; verifyA])).
  { exact (reachable_step _ _ (reachable_step _ _ reachable_init)). }
  assert (Hnotin : 8 ∉ categoryIds (afterCalls [submitA; verifyA])).
  { vm_compute. intros Hin. apply list_elem_of_In in Hin.
    destruct Hin as [Heq|[]]. discriminate. }
  split; [reflexivity|]. split; [exact Hr|]. split; [exact Hnotin|].
  exact (proj2 (proj2 (getCategoryStats_total _ 8)) Hr Hnotin).
Defined.

(** ** Submission *)

(** C8. A successful [submitResponse] gives the new response the number of
    responses stored so far as its id and appends it to [responseIds]; the
    record stored under it has [isVerified = false] and holds no plaintext;
    in a reachable state [getAllResponseIds] returns 0, 1, 2, ... in
    order, so the new id is in none of the earlier ones. *)
Theorem submit_allocates_next_id `{FHE : FHELib}
    (s s' : State) (cat ea : N) (pa : list Byte.byte) (ei : N) (pi : list Byte.byte)
    (es : N) (ps : list Byte.byte) (ts : N) :
  reachable s ->
  submitResponse cat ea pa ei pi es ps ts s = Ok (tt, s') ->
  let id := responseCount s in
  getAllResponseIds s = Ok (N.of_nat <$> seq 0 (length (responseIds s)), s) /\
  getAllResponseIds s' = Ok (N.of_nat <$> seq 0 (S (length (responseIds s))), s') /\
  responseIds s' = responseIds s ++ [id] /\
  (id ∉ responseIds s) /\
  NoDup (responseIds s') /\
  isVerified (responseAt s' id) = false /\
  plaintexts (responseAt s' id) = [] /\
  publicCategory (responseAt s' id) = cat /\
  timestamp (responseAt s' id) = ts /\
  last (events s') = Some (ResponseSubmitted id cat).
Proof.
  intros Hs Hsub id.
  assert (Hs' : reachable s').
  { replace s' with (transact (CallSubmit cat ea pa ei pi es ps ts) s).
    - by constructor.
    - unfold transact, run. by rewrite Hsub. }
  apply submitResponse_Ok in Hsub as (hA & hI & hS & _ & _ & _ & _ & _ & _ & ->).
  pose proof (reachable_responseIds s Hs) as Hids.
  pose proof (reachable_responseIds _ Hs') as Hids'.
  assert (Hlen : length (responseIds (submitted s cat hA hI hS ts))
                 = S (length (responseIds s))).
  { cbn. rewrite length_app. cbn. lia. }
  rewrite Hlen in Hids'.
  assert (Hfresh : id ∉ responseIds s).
  { rewrite Hids. intros Hin. apply list_elem_of_fmap in Hin as (k & Hk & Hin).
    apply elem_of_seq in Hin. subst id. unfold responseCount in Hk. lia. }
  unfold getAllResponseIds, gets.
  split; [by rewrite <- Hids|]. split; [by rewrite <- Hids'|].
  split; [done|]. split; [done|].
  split.
  { cbn. apply NoDup_app. split; [|split].
    - rewrite Hids. apply NoDup_fmap_2; [apply _|apply NoDup_seq].
    - intros x Hx Hx'. apply list_elem_of_singleton in Hx'. by subst x.
    - apply NoDup_singleton. }
  unfold responseAt. cbn. fold id. rewrite lookup_insert_eq. cbn.
  repeat split; try done.
  by rewrite last_snoc.
Qed.

Lemma submit_allocates_next_id_witness :
  let s := afterCalls [submitA] in
  let s' := afterCalls [submitA; submitB] in
  reachable s /\
  submitResponse 7 41 okProof 40001 okProof 7 okProof 1001 s = Ok (tt, s') /\
  responseIds s' = responseIds s ++ [1] /\
  isVerified (responseAt s' 1) = false.
Proof.
  assert (Hr : reachable (afterCalls [submitA])).
  { exact (reachable_step _ _ reachable_init). }
  assert (Hsub : submitResponse 7 41 okProof 40001 okProof 7 okProof 1001
                   (afterCalls [submitA])
                 = Ok (tt, afterCalls [submitA; submitB])).
  { vm_compute. reflexivity. }
  pose proof (submit_allocates_next_id _ _ _ _ _ _ _ _ _ _ Hr Hsub) as Hthm.
  cbv zeta in Hthm.
  split; [exact Hr|]. split; [exact Hsub|].
  split; [exact (proj1 (proj2 (proj2 Hthm)))|].
  exact (proj1 (proj2 (proj2 (proj2 (proj2 (proj2 Hthm)))))).
Defined.

(** C7. When the proof of any one of the three fields is not accepted (the
    library reverts on it, or the handle it binds is not initialised),
    [submitResponse] reverts with one of the invalid-proof errors, and the
    transaction leaves the state as it found it: no record stored, the
    list of response ids and the category index as before. *)
Theorem submit_all_or_nothing `{FHE : FHELib}
    (s : State) (cat ea : N) (pa : list Byte.byte) (ei : N) (pi : list Byte.byte)
    (es : N) (ps : list Byte.byte) (ts : N) :
  accepted ea pa && accepted ei pi && accepted es ps = false ->
  (exists e, submitResponse cat ea pa ei pi es ps ts s = Err e /\ invalidProof e) /\
  let s' := transact (CallSubmit cat ea pa ei pi es ps ts) s in
  s' = s /\
  responses s' = responses s /\
  getAllResponseIds s' = Ok (responseIds s, s') /\
  length (responseIds s') = length (responseIds s) /\
  categoryIds s' = categoryIds s.
Proof.
  intros Hbad.
  assert (Herr : exists e, submitResponse cat ea pa ei pi es ps ts s = Err e /\ invalidProof e).
  { unfold accepted in Hbad.
    unfold submitResponse, bind, gets, fromExternalM, require, ret, throw, invalidProof.
    destruct (fromExternal ea pa) as [hA|]; [|eauto].
    destruct (isInitialized hA); [|eauto 6].
    destruct (fromExternal ei pi) as [hI|]; [|eauto].
    destruct (isInitialized hI); [|eauto 6].
    destruct (fromExternal es ps) as [hS|]; [|eauto].
    destruct (isInitialized hS); [discriminate|eauto 6]. }
  split; [exact Herr|].
  destruct Herr as (e & Herr & _).
  assert (Hsame : transact (CallSubmit cat ea pa ei pi es ps ts) s = s).
  { unfold transact, run. by rewrite Herr. }
  cbv zeta. rewrite Hsame. done.
Qed.

Lemma submit_all_or_nothing_witness :
  let s := afterCalls [submitA] in
  accepted 31 okProof && accepted 50001 badProof && accepted 9 okProof = false /\
  submitResponse 7 31 okProof 50001 badProof 9 okProof 1002 s = Err FHERevert /\
  transact (CallSubmit 7 31 okProof 50001 badProof 9 okProof 1002) s = s.
Proof.
  pose proof (submit_all_or_nothing (afterCalls [submitA])
                7 31 okProof 50001 badProof 9 okProof 1002 eq_refl) as [_ Hthm].
  split; [reflexivity|]. split; [reflexivity|].
  exact (proj1 Hthm).
Defined.

(** ** The life of a record *)

Section Records.
Context `{FHE : FHELib}.

Lemma evolves_refl r : evolves r r.
Proof. by left. Qed.

Lemma evolves_trans r1 r2 r3 : evolves r1 r2 -> evolves r2 r3 -> evolves r1 r3.
Proof.
  intros [->|[Hf ->]] [->|[Hf' ->]]; unfold evolves; auto.
Qed.

Lemma transact_evolves c s id :
  id < responseCount s ->
  evolves (responseAt s id) (responseAt (transact c s) id) /\
  responseCount s <= responseCount (transact c s).
Proof.
  intros Hlt.
  destruct (transact_cases c s) as [->|[(cat & hA & hI & hS & ts & ->)|
    [(id' & _ & Hv & ->)|(cat & n & a & i & t & _ & ->)]]].
  - split; [apply evolves_refl|lia].
  - split.
    + unfold responseAt. cbn. rewrite lookup_insert_ne; [apply evolves_refl|lia].
    + unfold responseCount. cbn. rewrite length_app. lia.
  - split; [|unfold responseCount; cbn; lia].
    unfold responseAt at 2. cbn. destruct (decide (id' = id)) as [->|Hne].
    + rewrite lookup_insert_eq. cbn. by right.
    + rewrite lookup_insert_ne by done. apply evolves_refl.
  - split; [apply evolves_refl|unfold responseCount; cbn; lia].
Qed.

Lemma transactAll_evolves cs : forall s id,
  id < responseCount s ->
  evolves (responseAt s id) (responseAt (transactAll cs s) id).
Proof.
  induction cs as [|c cs IH]; intros s id Hlt; cbn; [apply evolves_refl|].
  destruct (transact_evolves c s id Hlt) as [Hstep Hle].
  eapply evolves_trans; [exact Hstep|]. apply IH. lia.
Qed.

End Records.

(** C9. For a response stored in a state and any further run of
    transactions: its record stays as it is or its flag goes from [false]
    to [true] once; the three handles, the category and the timestamp are
    those of its creation, and a flag that is [true] stays [true], the
    record then staying whole. *)
Theorem verified_is_terminal `{FHE : FHELib} (s : State) (cs : list Call) (id : N) :
  id < responseCount s ->
  let r := responseAt s id in
  let r' := responseAt (transactAll cs s) id in
  evolves r r' /\
  encryptedAge r' = encryptedAge r /\
  encryptedIncome r' = encryptedIncome r /\
  encryptedSatisfaction r' = encryptedSatisfaction r /\
  publicCategory r' = publicCategory r /\
  timestamp r' = timestamp r /\
  (isVerified r = true -> isVerified r' = true /\ r' = r).
Proof.
  intros Hlt r r'.
  pose proof (transactAll_evolves cs s id Hlt) as Hev. fold r r' in Hev.
  split; [exact Hev|].
  destruct Hev as [->|[Hf ->]]; [done|].
  cbn. repeat split; try done; congruence.
Qed.

Lemma verified_is_terminal_witness :
  let s := afterCalls [submitA; verifyA] in
  let s' := transactAll [submitB; verifyA; verifyB; CallUpdate 7] s in
  0 < responseCount s /\
  isVerified (responseAt s 0) = true /\
  responseAt s' 0 = responseAt s 0.
Proof.
  assert (Hlt : 0 < responseCount (afterCalls [submitA; verifyA])).
  { vm_compute. reflexivity. }
  pose proof (verified_is_terminal (afterCalls [submitA; verifyA])
                [submitB; verifyA; verifyB; CallUpdate 7] 0 Hlt) as Hthm.
  cbv zeta in Hthm. destruct Hthm as (_ & _ & _ & _ & _ & _ & Hfin).
  split; [exact Hlt|]. split; [reflexivity|].
  exact (proj2 (Hfin eq_refl)).
Defined.

(** ** Recomputation *)

Section Recompute.
Context `{FHE : FHELib}.

Lemma ledgerFrom_S s i n :
  ledgerFrom s i (S n) = responseAt s i :: ledgerFrom s (i + 1) n.
Proof.
  unfold ledgerFrom. cbn [seq]. rewrite fmap_cons, N.add_0_r. f_equal.
  rewrite <- fmap_S_seq, <- list_fmap_compose.
  apply list_fmap_ext. intros j k _. cbn. f_equal. lia.
Qed.

Lemma ledger_ledgerFrom s : ledger s = ledgerFrom s 0 (length (responseIds s)).
Proof. reflexivity. Qed.

Lemma verifiedIn_test cat r :
  (publicCategory r =? cat) && isVerified r = true <-> verifiedIn cat r.
Proof.
  unfold verifiedIn. rewrite andb_true_iff, N.eqb_eq. done.
Qed.

(** The loop adds, to the accumulators it starts from, the handles of the
    verified records of the category among those it visits, in order. *)
Lemma statsLoop_spec cat n : forall i acc s acc' s',
  statsLoop cat n i acc s = Ok (acc', s') ->
  let vs := filter (verifiedIn cat) (ledgerFrom s i n) in
  accCount acc' = accCount acc + N.of_nat (length vs) /\
  accAge acc' = fold_left add (encryptedAge <$> vs) (accAge acc) /\
  accIncome acc' = fold_left add (encryptedIncome <$> vs) (accIncome acc) /\
  accSatisfaction acc'
    = fold_left add (encryptedSatisfaction <$> vs) (accSatisfaction acc).
Proof.
  induction n as [|n IH]; intros i acc s acc' s'.
  - cbn. unfold ret. intros Heq; inversion Heq; subst. cbn.
    repeat split; try done. lia.
  - rewrite ledgerFrom_S. cbn [statsLoop]. unfold bind at 1. unfold gets at 1.
    rewrite filter_cons.
    destruct ((publicCategory (responseAt s i) =? cat) && isVerified (responseAt s i))
      eqn:Htest.
    + apply verifiedIn_test in Htest.
      destruct (decide (verifiedIn cat (responseAt s i))) as [_|Hn]; [|done].
      unfold bind at 1. unfold checkedInc, bind, ret, throw.
      destruct (accCount acc <? uint32_max); [|discriminate].
      intros Hloop. apply IH in Hloop. cbn in Hloop |- *.
      destruct Hloop as (Hc & Ha & Hi & Hs).
      repeat split; try done. lia.
    + destruct (decide (verifiedIn cat (responseAt s i))) as [Hy|_].
      { apply verifiedIn_test in Hy. congruence. }
      unfold bind at 1. unfold ret at 1.
      intros Hloop. by apply IH in Hloop.
Qed.

(** The count stays a [uint32]: the checked increment reverts first. *)
Lemma statsLoop_bound cat n : forall i acc s acc' s',
  statsLoop cat n i acc s = Ok (acc', s') ->
  accCount acc <= uint32_max -> accCount acc' <= uint32_max.
Proof.
  induction n as [|n IH]; intros i acc s acc' s'.
  - cbn. unfold ret. intros Heq; inversion Heq; subst. done.
  - cbn [statsLoop]. unfold bind at 1. unfold gets at 1.
    destruct ((publicCategory (responseAt s i) =? cat) && isVerified (responseAt s i)).
    + unfold bind at 1. unfold checkedInc, bind, ret, throw.
      destruct (accCount acc <? uint32_max) eqn:Hlt; [|discriminate].
      intros Hloop _. apply IH in Hloop; [done|]. cbn.
      apply N.ltb_lt in Hlt. lia.
    + unfold bind at 1. unfold ret at 1. apply IH.
Qed.

(** With a decryption under which [add] is addition modulo [2^32], the
    homomorphic sum decrypts to the sum of the plaintexts. *)
Lemma homSum_decrypts (dec : N -> N) (hs : list N) :
  dec 0 = 0 ->
  (forall a b, dec (add a b) = (dec a + dec b) mod 2 ^ 32) ->
  dec (homSum hs) = foldr N.add 0 (dec <$> hs) mod 2 ^ 32.
Proof.
  intros Hzero Hadd. unfold homSum.
  assert (Hgen : forall a, dec a < 2 ^ 32 ->
            dec (fold_left add hs a) = (dec a + foldr N.add 0 (dec <$> hs)) mod 2 ^ 32).
  { induction hs as [|h hs IH]; intros a Ha; cbn.
    - rewrite N.add_0_r, N.mod_small; done.
    - rewrite IH.
      + rewrite Hadd, N.Div0.add_mod_idemp_l. f_equal. lia.
      + rewrite Hadd. apply N.mod_lt. done. }
  rewrite Hgen; rewrite Hzero; [done|]. done.
Qed.

End Recompute.

(** C6. When [updateCategoryStats] succeeds for a category, the statistics
    it stores for that category count the responses of the ledger that
    carry the category and are verified, and each of the three sums is the
    homomorphic sum of the matching handle over those responses, in id
    order; nothing else in the storage moves and [StatsUpdated] carries the
    count. No reachable state meets the precondition (C4), so the statement
    is over any storage. *)
Theorem recompute_sums_verified `{FHE : FHELib} (s s' : State) (cat : N) :
  updateCategoryStats cat s = Ok (tt, s') ->
  let vs := verifiedOf s cat in
  statsAt s' cat = mkStats (N.of_nat (length vs))
                           (homSum (encryptedAge <$> vs))
                           (homSum (encryptedIncome <$> vs))
                           (homSum (encryptedSatisfaction <$> vs)) /\
  N.of_nat (length vs) <= uint32_max /\
  s' = updated s cat (N.of_nat (length vs))
                     (homSum (encryptedAge <$> vs))
                     (homSum (encryptedIncome <$> vs))
                     (homSum (encryptedSatisfaction <$> vs)).
Proof.
  intros Hupd vs.
  apply updateCategoryStats_Ok in Hupd as (_ & acc & Hloop & ->).
  pose proof (statsLoop_spec _ _ _ _ _ _ _ Hloop) as (Hc & Ha & Hi & Hs).
  assert (Hb : accCount acc <= uint32_max).
  { apply (statsLoop_bound _ _ _ _ _ _ _ Hloop). cbn. unfold uint32_max. lia. }
  rewrite <- ledger_ledgerFrom in Hc, Ha, Hi, Hs.
  fold (verifiedOf s cat) in Hc, Ha, Hi, Hs. fold vs in Hc, Ha, Hi, Hs.
  cbn in Hc, Ha, Hi, Hs. rewrite N.add_0_l in Hc.
  fold (homSum (encryptedAge <$> vs)) in Ha.
  fold (homSum (encryptedIncome <$> vs)) in Hi.
  fold (homSum (encryptedSatisfaction <$> vs)) in Hs.
  rewrite Hc in Hb. rewrite Hc, Ha, Hi, Hs.
  split; [|split; [exact Hb|done]].
  unfold statsAt, updated. cbn. by rewrite lookup_insert_eq.
Qed.

Lemma recompute_sums_verified_witness :
  let s' := updated primed 7 2 71 90001 15 in
  updateCategoryStats 7 primed = Ok (tt, s') /\
  length (verifiedOf primed 7) = 2%nat /\
  statsAt s' 7 = mkStats 2 71 90001 15.
Proof.
  assert (Hupd : updateCategoryStats 7 primed = Ok (tt, updated primed 7 2 71 90001 15)).
  { vm_compute. reflexivity. }
  pose proof (recompute_sums_verified _ _ _ Hupd) as (Hstats & _ & _).
  split; [exact Hupd|]. split; [reflexivity|].
  exact Hstats.
Defined.

(** ** Verification *)

(** C2, as stated, fails: after a response is submitted and verified, its
    flag is [true] and its record holds no plaintext. *)
Lemma verified_without_plaintexts :
  let s := afterCalls [submitA; verifyA] in
  reachable s /\
  isVerified (responseAt s 0) = true /\
  plaintexts (responseAt s 0) = [] /\
  ~ (plaintexts (responseAt s 0) <> [] <-> isVerified (responseAt s 0) = true).
Proof.
  split; [exact (reachable_step _ _ (reachable_step _ _ reachable_init))|].
  split; [reflexivity|]. split; [reflexivity|].
  intros [_ Hback]. by apply Hback.
Qed.

(** C2, amended. A successful [verifyResponse] sets the flag of the response
    to [true], appends [ResponseVerified] to the log and writes nothing
    else: the handles, the category and the timestamp of the record, every
    other record, the statistics cache and the two index arrays are as
    before. The record has no plaintext field, so a response holds no
    plaintext before and after, verified or not. *)
Theorem verify_sets_flag_only `{FHE : FHELib}
    (s s' : State) (id : N) (pa pi ps : list Byte.byte) :
  verifyResponse id pa pi ps s = Ok (tt, s') ->
  isVerified (responseAt s id) = false /\
  responseAt s' id = setVerified (responseAt s id) true /\
  isVerified (responseAt s' id) = true /\
  (forall id', id' <> id -> responseAt s' id' = responseAt s id') /\
  categoryStats s' = categoryStats s /\
  responseIds s' = responseIds s /\
  categoryIds s' = categoryIds s /\
  events s' = events s ++ [ResponseVerified id] /\
  (forall id', plaintexts (responseAt s id') = [] /\ plaintexts (responseAt s' id') = []).
Proof.
  intros Hver. apply verifyResponse_Ok in Hver as (_ & Hv & ->).
  split; [exact Hv|].
  assert (Hat : responseAt (verified s id) id = setVerified (responseAt s id) true).
  { unfold responseAt at 1. cbn. by rewrite lookup_insert_eq. }
  split; [exact Hat|]. split; [by rewrite Hat|].
  split.
  { intros id' Hne. unfold responseAt at 1. cbn. by rewrite lookup_insert_ne. }
  done.
Qed.

Lemma verify_sets_flag_only_witness :
  let s := afterCalls [submitA] in
  let s' := afterCalls [submitA; verifyA] in
  verifyResponse 0 okProof okProof okProof s = Ok (tt, s') /\
  responseAt s' 0 = setVerified (responseAt s 0) true /\
  events s' = events s ++ [ResponseVerified 0].
Proof.
  assert (Hver : verifyResponse 0 okProof okProof okProof (afterCalls [submitA])
                 = Ok (tt, afterCalls [submitA; verifyA])).
  { vm_compute. reflexivity. }
  pose proof (verify_sets_flag_only _ _ _ _ _ _ Hver)
    as (_ & Hat & _ & _ & _ & _ & _ & Hev & _).
  split; [exact Hver|]. split; [exact Hat|exact Hev].
Defined.

(** C1, as stated, fails: [verifyResponse] on a response that is already
    verified reverts with "Response already verified"; it returns no value,
    and the record holds no plaintext to return. *)
Lemma verify_again_reverts :
  let s := afterCalls [submitA; verifyA] in
  reachable s /\
  isVerified (responseAt s 0) = true /\
  verifyResponse 0 okProof okProof okProof s = Err (Revert "Response already verified") /\
  ~ (exists out, verifyResponse 0 okProof okProof okProof s = Ok out).
Proof.
  split; [exact (reachable_step _ _ (reachable_step _ _ reachable_init))|].
  split; [reflexivity|]. split; [reflexivity|].
  intros [out Hout]. vm_compute in Hout. discriminate.
Qed.

Section ClientFlow.
Import Client.

Lemma roundDouble_exact z : (Z.abs z < 2 ^ 53)%Z -> roundDouble z = z.
Proof.
  intros Hlt. unfold roundDouble.
  destruct (Z.abs z <? 2 ^ 53)%Z eqn:Htest; [done|].
  apply Z.ltb_ge in Htest. lia.
Qed.

Lemma orZero_Num z : orZero (Num z) = Num z.
Proof. cbn. destruct (z =? 0)%Z eqn:Hz; [|done]. apply Z.eqb_eq in Hz. by subst. Qed.

(** The short cut of [decryptData]: when the record read back says
    verified, the flow ends there. *)
Lemma decryptData_short_cut env surveyId contractRead surveyData :
  isConnected env = true ->
  falsy (address env) = false ->
  getContractReadOnly env = Returns (Some contractRead) ->
  getBusinessData contractRead surveyId = Returns surveyData ->
  isVerified surveyData = true ->
  decryptData env surveyId =
    ([SetIsDecrypting true; GetContractReadOnly; GetBusinessData surveyId;
      SetTransactionStatus true StatusSuccess "Data already verified on-chain";
      HideStatusAfter 2000; SetIsDecrypting false],
     Some (Num (roundDouble (decryptedValue surveyData)))).
Proof.
  intros Hc Ha Hread Hdata Hv.
  unfold decryptData, decryptData_try, await, cbind.
  rewrite Hc, Ha, Hread, Hdata, Hv. cbn -[roundDouble Z.eqb].
  destruct (roundDouble (decryptedValue surveyData) =? 0)%Z eqn:Hz; [|done].
  apply Z.eqb_eq in Hz. by rewrite Hz.
Qed.

(** With the contract's own revert message the [catch] block does not take
    its benign branch: the run that loses the race ends with an error
    status and [null]. *)
Example decryptData_loses_race :
  decryptData losesRace "0" =
    ([SetIsDecrypting true; GetContractReadOnly; GetBusinessData "0";
      GetContractWithSigner; GetEncryptedValue "0"; VerifyDecryption [9] "0x5EED";
      SetTransactionStatus true StatusError
        "Decryption failed: execution reverted: Response already verified";
      HideStatusAfter 3000; SetIsDecrypting false],
     None).
Proof. vm_compute. reflexivity. Qed.

End ClientFlow.

(** C1, amended. For a stored response whose flag is [true]:
    [verifyResponse] reverts with "Response already verified" and the
    transaction leaves the state as it found it; and [decryptData], reading
    the record back with that flag, shows a success status and resolves to
    [Number(decryptedValue) || 0] of the record it read (the value itself
    below [2^53]), having neither asked for a signer nor called the
    decryption hook. *)
Theorem already_verified_outcome `{FHE : FHELib}
    (s : State) (id : N) (pa pi ps : list Byte.byte)
    (env : Client.Env) (surveyId : string)
    (contractRead : Client.ReadContract) (surveyData : Client.BusinessData) :
  id < responseCount s ->
  isVerified (responseAt s id) = true ->
  Client.isConnected env = true ->
  Client.falsy (Client.address env) = false ->
  Client.getContractReadOnly env = Client.Returns (Some contractRead) ->
  Client.getBusinessData contractRead surveyId = Client.Returns surveyData ->
  Client.isVerified surveyData = isVerified (responseAt s id) ->
  verifyResponse id pa pi ps s = Err (Revert "Response already verified") /\
  transact (CallVerify id pa pi ps) s = s /\
  Client.decryptData env surveyId =
    ([Client.SetIsDecrypting true; Client.GetContractReadOnly;
      Client.GetBusinessData surveyId;
      Client.SetTransactionStatus true Client.StatusSuccess "Data already verified on-chain";
      Client.HideStatusAfter 2000; Client.SetIsDecrypting false],
     Some (Client.orZero (Client.Number (Some (Client.decryptedValue surveyData))))) /\
  forallb (fun e => negb (Client.touchesOracle e)) (fst (Client.decryptData env surveyId))
    = true /\
  ((Z.abs (Client.decryptedValue surveyData) < 2 ^ 53)%Z ->
   snd (Client.decryptData env surveyId) = Some (Client.Num (Client.decryptedValue surveyData))).
Proof.
  intros Hlt Hv Hc Ha Hread Hdata Hflag.
  rewrite Hv in Hflag.
  pose proof (verifyResponse_already id pa pi ps s Hlt Hv) as Herr.
  pose proof (decryptData_short_cut env surveyId contractRead surveyData
                Hc Ha Hread Hdata Hflag) as Hrun.
  split; [exact Herr|]. split.
  { unfold transact, run. by rewrite Herr. }
  rewrite Hrun. cbn [Client.Number]. rewrite orZero_Num.
  split; [reflexivity|]. split; [reflexivity|].
  intros Hsmall. cbn [snd]. by rewrite roundDouble_exact.
Qed.

Lemma already_verified_outcome_witness :
  let s := afterCalls [submitA; verifyA] in
  0 < responseCount s /\
  isVerified (responseAt s 0) = true /\
  verifyResponse 0 okProof okProof okProof s = Err (Revert "Response already verified") /\
  transact verifyA s = s /\
  snd (Client.decryptData Client.seesVerified "0") = Some (Client.Num 8).
Proof.
  assert (Hlt : 0 < responseCount (afterCalls [submitA; verifyA])).
  { vm_compute. reflexivity. }
  pose proof (already_verified_outcome (afterCalls [submitA; verifyA]) 0
                okProof okProof okProof Client.seesVerified "0" _ _
                Hlt eq_refl eq_refl eq_refl eq_refl eq_refl eq_refl)
    as (Herr & Hsame & _ & _ & Hval).
  split; [exact Hlt|]. split; [reflexivity|].
  split; [exact Herr|]. split; [exact Hsame|].
  apply Hval. vm_compute. reflexivity.
Defined.

(** * Further properties of the contract *)

Section Outcomes.
Context `{FHE : FHELib}.

Lemma accepted_Some input proof :
  accepted input proof = true ->
  exists h, fromExternal input proof = Some h /\ isInitialized h = true.
Proof.
  unfold accepted. destruct (fromExternal input proof) as [h|]; [eauto|discriminate].
Qed.

Lemma submitResponse_outcome cat ea pa ei pi es ps ts s :
  match submitResponse cat ea pa ei pi es ps ts s with
  | Ok (_, s') =>
      exists hA hI hS,
        fromExternal ea pa = Some hA /\ fromExternal ei pi = Some hI /\
        fromExternal es ps = Some hS /\
        accepted ea pa && accepted ei pi && accepted es ps = true /\
        s' = submitted s cat hA hI hS ts
  | Err e => accepted ea pa && accepted ei pi && accepted es ps = false /\ invalidProof e
  end.
Proof.
  destruct (submitResponse cat ea pa ei pi es ps ts s) as [[u s']|e] eqn:Hrun.
  - apply submitResponse_Ok in Hrun as (hA & hI & hS & EA & IA & EI & II & ES & IS & ->).
    exists hA, hI, hS. unfold accepted. rewrite EA, EI, ES, IA, II, IS. done.
  - destruct (accepted ea pa && accepted ei pi && accepted es ps) eqn:Hacc.
    + apply andb_true_iff in Hacc as [Hacc Hs]. apply andb_true_iff in Hacc as [Ha Hi].
      apply accepted_Some in Ha as (hA & EA & IA).
      apply accepted_Some in Hi as (hI & EI & II).
      apply accepted_Some in Hs as (hS & ES & IS).
      rewrite (submitResponse_accepts cat _ _ _ _ _ _ ts s _ _ _ EA IA EI II ES IS) in Hrun.
      discriminate.
    + split; [done|].
      revert Hrun. unfold accepted in Hacc.
      unfold submitResponse, bind, gets, fromExternalM, require, ret, throw, invalidProof.
      destruct (fromExternal ea pa) as [hA|]; [|intros [= <-]; auto].
      destruct (isInitialized hA); [|intros [= <-]; auto].
      destruct (fromExternal ei pi) as [hI|]; [|intros [= <-]; auto].
      destruct (isInitialized hI); [|intros [= <-]; auto].
      destruct (fromExternal es ps) as [hS|]; [|intros [= <-]; auto].
      destruct (isInitialized hS); [discriminate|intros [= <-]; auto 6].
Qed.

Lemma verifyResponse_outcome id pa pi ps s :
  verifyResponse id pa pi ps s =
    if negb (id <? responseCount s) then Err (Revert "Invalid response ID")
    else if isVerified (responseAt s id) then Err (Revert "Response already verified")
    else if signaturesPass (responseAt s id) pa pi ps then Ok (tt, verified s id)
    else Err FHERevert.
Proof.
  unfold verifyResponse, bind, gets, require, checkSignaturesM, ret, throw, signaturesPass.
  destruct (id <? responseCount s); [|done].
  destruct (isVerified (responseAt s id)); [done|]. cbn.
  repeat (match goal with |- context [checkSignatures ?a ?b ?c] =>
            destruct (checkSignatures a b c); cbn; [|done] end).
  done.
Qed.

Lemma getResponse_outcome id s :
  getResponse id s =
    if id <? responseCount s then Ok (responseAt s id, s)
    else Err (Revert "Invalid response ID").
Proof.
  unfold getResponse, bind, gets, require, ret, throw.
  by destruct (id <? responseCount s).
Qed.

End Outcomes.

(** X1. [submitResponse] succeeds exactly when the validator accepts all
    three inputs, whatever the category, the timestamp and the storage; it
    then stores the handles the library bound, and otherwise the error is
    one of the invalid-proof errors. *)
Theorem submit_succeeds_iff_accepted `{FHE : FHELib}
    (s : State) (cat ea : N) (pa : list Byte.byte) (ei : N) (pi : list Byte.byte)
    (es : N) (ps : list Byte.byte) (ts : N) :
  ((exists s', submitResponse cat ea pa ei pi es ps ts s = Ok (tt, s')) <->
   accepted ea pa && accepted ei pi && accepted es ps = true) /\
  (forall s', submitResponse cat ea pa ei pi es ps ts s = Ok (tt, s') ->
     exists hA hI hS,
       fromExternal ea pa = Some hA /\ fromExternal ei pi = Some hI /\
       fromExternal es ps = Some hS /\
       responseAt s' (responseCount s) = mkResponse hA hI hS cat ts false) /\
  (forall e, submitResponse cat ea pa ei pi es ps ts s = Err e -> invalidProof e).
Proof.
  pose proof (submitResponse_outcome cat ea pa ei pi es ps ts s) as Hout.
  destruct (submitResponse cat ea pa ei pi es ps ts s) as [[[] s1]|e].
  - destruct Hout as (hA & hI & hS & EA & EI & ES & Hacc & ->).
    split; [split; eauto|]. split; [|discriminate].
    intros s' [= <-]. exists hA, hI, hS. repeat split; try done.
    unfold responseAt. cbn. by rewrite lookup_insert_eq.
  - destruct Hout as [Hacc Hinv].
    split; [split; [intros [s' Hs']; discriminate|congruence]|].
    split; [discriminate|]. by intros e' [= <-].
Qed.

(** X2. [getResponse] reverts with "Invalid response ID" exactly on the
    ids that are not below the number of responses; on the others it
    returns the stored record and leaves the state. *)
Theorem getResponse_in_range `{FHE : FHELib} (s : State) (id : N) :
  (id < responseCount s -> getResponse id s = Ok (responseAt s id, s)) /\
  (responseCount s <= id -> getResponse id s = Err (Revert "Invalid response ID")) /\
  ((exists r s', getResponse id s = Ok (r, s')) <-> id < responseCount s).
Proof.
  rewrite getResponse_outcome.
  destruct (id <? responseCount s) eqn:Hlt.
  - apply N.ltb_lt in Hlt. split; [done|]. split; [lia|]. split; eauto.
  - apply N.ltb_ge in Hlt. split; [lia|]. split; [done|].
    split; [intros (r & s' & Heq); discriminate|lia].
Qed.

Lemma getResponse_in_range_witness :
  let s := afterCalls [submitA] in
  0 < responseCount s /\ responseCount s <= 1 /\
  getResponse 0 s = Ok (mkResponse 31 50001 9 7 1000 false, s) /\
  getResponse 1 s = Err (Revert "Invalid response ID").
Proof.
  pose proof (getResponse_in_range (afterCalls [submitA]) 0) as (Hin & _ & _).
  pose proof (getResponse_in_range (afterCalls [submitA]) 1) as (_ & Hout & _).
  assert (Hlt : 0 < responseCount (afterCalls [submitA])) by (vm_compute; reflexivity).
  assert (Hge : responseCount (afterCalls [submitA]) <= 1) by (vm_compute; discriminate).
  split; [exact Hlt|]. split; [exact Hge|].
  split; [exact (Hin Hlt)|exact (Hout Hge)].
Defined.

(** X3. The record a successful [submitResponse] stores is the one
    [getResponse] returns for the new id right after; before the
    submission the same id is rejected. *)
Theorem submit_then_getResponse `{FHE : FHELib}
    (s s' : State) (cat ea : N) (pa : list Byte.byte) (ei : N) (pi : list Byte.byte)
    (es : N) (ps : list Byte.byte) (ts : N) :
  submitResponse cat ea pa ei pi es ps ts s = Ok (tt, s') ->
  getResponse (responseCount s) s = Err (Revert "Invalid response ID") /\
  (exists hA hI hS,
     fromExternal ea pa = Some hA /\ fromExternal ei pi = Some hI /\
     fromExternal es ps = Some hS /\
     getResponse (responseCount s) s' = Ok (mkResponse hA hI hS cat ts false, s')).
Proof.
  intros Hsub.
  apply submitResponse_Ok in Hsub as (hA & hI & hS & EA & _ & EI & _ & ES & _ & ->).
  rewrite !getResponse_outcome. rewrite N.ltb_irrefl. split; [done|].
  exists hA, hI, hS. repeat split; try done.
  assert (Hlt : (responseCount s <? responseCount (submitted s cat hA hI hS ts)) = true).
  { apply N.ltb_lt. unfold responseCount. cbn. rewrite length_app. cbn. lia. }
  rewrite Hlt. unfold responseAt. cbn. by rewrite lookup_insert_eq.
Qed.

Lemma submit_then_getResponse_witness :
  let s := afterCalls [submitA] in
  let s' := afterCalls [submitA; submitB] in
  submitResponse 7 41 okProof 40001 okProof 7 okProof 1001 s = Ok (tt, s') /\
  getResponse 1 s = Err (Revert "Invalid response ID") /\
  getResponse 1 s' = Ok (mkResponse 41 40001 7 7 1001 false, s').
Proof.
  assert (Hsub : submitResponse 7 41 okProof 40001 okProof 7 okProof 1001
                   (afterCalls [submitA])
                 = Ok (tt, afterCalls [submitA; submitB])) by (vm_compute; reflexivity).
  pose proof (submit_then_getResponse _ _ _ _ _ _ _ _ _ _ Hsub) as [Hbefore _].
  split; [exact Hsub|]. split; [exact Hbefore|]. vm_compute. reflexivity.
Defined.

(** X4. [verifyResponse] succeeds exactly when the id is below the number
    of responses, the record is not yet verified and the three signature
    checks pass. The id is checked first and the flag second: an id out of
    range gives "Invalid response ID" and a verified record gives "Response
    already verified" whatever the proofs are; a failed signature check is a
    revert of the library. *)
Theorem verify_succeeds_iff `{FHE : FHELib}
    (s : State) (id : N) (pa pi ps : list Byte.byte) :
  ((exists s', verifyResponse id pa pi ps s = Ok (tt, s')) <->
   id < responseCount s /\ isVerified (responseAt s id) = false /\
   signaturesPass (responseAt s id) pa pi ps = true) /\
  (responseCount s <= id ->
   verifyResponse id pa pi ps s = Err (Revert "Invalid response ID")) /\
  (id < responseCount s -> isVerified (responseAt s id) = true ->
   verifyResponse id pa pi ps s = Err (Revert "Response already verified")) /\
  (id < responseCount s -> isVerified (responseAt s id) = false ->
   signaturesPass (responseAt s id) pa pi ps = false ->
   verifyResponse id pa pi ps s = Err FHERevert).
Proof.
  rewrite verifyResponse_outcome.
  destruct (id <? responseCount s) eqn:Hlt; cbn [negb].
  - apply N.ltb_lt in Hlt.
    destruct (isVerified (responseAt s id)) eqn:Hv.
    + split; [split; [intros [s' Heq]; discriminate|intros (_ & Hf & _); discriminate]|].
      split; [lia|]. split; [done|]. discriminate.
    + destruct (signaturesPass (responseAt s id) pa pi ps) eqn:Hsig.
      * split; [split; eauto|]. split; [lia|]. split; discriminate.
      * split; [split; [intros [s' Heq]; discriminate|intros (_ & _ & Hf); discriminate]|].
        split; [lia|]. split; [discriminate|done].
  - apply N.ltb_ge in Hlt.
    split; [split; [intros [s' Heq]; discriminate|intros (Hf & _); lia]|].
    split; [done|]. split; intros; lia.
Qed.

Lemma verify_succeeds_iff_witness :
  let s := afterCalls [submitA; submitB; verifyA] in
  responseCount s <= 2 /\
  verifyResponse 2 okProof okProof okProof s = Err (Revert "Invalid response ID") /\
  (0 < responseCount s /\ isVerified (responseAt s 0) = true) /\
  verifyResponse 0 badProof badProof badProof s = Err (Revert "Response already verified") /\
  (1 < responseCount s /\ isVerified (responseAt s 1) = false /\
   signaturesPass (responseAt s 1) okProof badProof okProof = false) /\
  verifyResponse 1 okProof badProof okProof s = Err FHERevert.
Proof.
  set (s := afterCalls [submitA; submitB; verifyA]).
  assert (H2 : responseCount s <= 2) by (vm_compute; discriminate).
  assert (H0 : 0 < responseCount s) by (vm_compute; reflexivity).
  assert (H1 : 1 < responseCount s) by (vm_compute; reflexivity).
  assert (Hv0 : isVerified (responseAt s 0) = true) by (vm_compute; reflexivity).
  assert (Hv1 : isVerified (responseAt s 1) = false) by (vm_compute; reflexivity).
  assert (Hs1 : signaturesPass (responseAt s 1) okProof badProof okProof = false)
    by (vm_compute; reflexivity).
  split; [exact H2|].
  split; [exact (proj1 (proj2 (verify_succeeds_iff s 2 okProof okProof okProof)) H2)|].
  split; [exact (conj H0 Hv0)|].
  split; [exact (proj1 (proj2 (proj2 (verify_succeeds_iff s 0 badProof badProof badProof)))
                   H0 Hv0)|].
  split; [exact (conj H1 (conj Hv1 Hs1))|].
  exact (proj2 (proj2 (proj2 (verify_succeeds_iff s 1 okProof badProof okProof))) H1 Hv1 Hs1).
Defined.

(** X5. The three proofs of [verifyResponse] are not tied to the three
    fields: each is checked against the same list of the three handles and
    the empty cleartexts, so the call gives the same result under any
    reordering of the proofs, and one proof that passes the check serves
    for all three. *)
Theorem verify_proofs_interchangeable `{FHE : FHELib}
    (s : State) (id : N) (p1 p2 p3 : list Byte.byte) :
  verifyResponse id p1 p2 p3 s = verifyResponse id p2 p1 p3 s /\
  verifyResponse id p1 p2 p3 s = verifyResponse id p1 p3 p2 s /\
  verifyResponse id p1 p2 p3 s = verifyResponse id p3 p2 p1 s /\
  verifyResponse id p1 p2 p3 s = verifyResponse id p2 p3 p1 s /\
  verifyResponse id p1 p2 p3 s = verifyResponse id p3 p1 p2 s /\
  (verifyResponse id p1 p1 p1 s = Ok (tt, verified s id) <->
   id < responseCount s /\ isVerified (responseAt s id) = false /\
   checkSignatures [toBytes32 (encryptedAge (responseAt s id));
                    toBytes32 (encryptedIncome (responseAt s id));
                    toBytes32 (encryptedSatisfaction (responseAt s id))] [] p1 = true).
Proof.
  rewrite !verifyResponse_outcome. unfold signaturesPass.
  set (cts := [toBytes32 (encryptedAge (responseAt s id));
               toBytes32 (encryptedIncome (responseAt s id));
               toBytes32 (encryptedSatisfaction (responseAt s id))]).
  destruct (id <? responseCount s) eqn:Hlt; cbn [negb].
  - apply N.ltb_lt in Hlt.
    destruct (isVerified (responseAt s id)).
    + repeat split; try done; try discriminate. intros (_ & Hf & _). discriminate.
    + destruct (checkSignatures cts [] p1), (checkSignatures cts [] p2),
        (checkSignatures cts [] p3); cbn;
        repeat split; try done; try discriminate; intros (_ & _ & Hf); discriminate.
  - apply N.ltb_ge in Hlt.
    repeat split; try done; try discriminate. intros (Hf & _). lia.
Qed.



(** ** The ledger in reachable states *)

Section Ledger.
Context `{FHE : FHELib}.

(** What a transaction was, from the state it leaves. *)
Lemma transact_inv c s :
  (exists e, run c s = Err e /\ transact c s = s) \/
  (exists cat ea pa ei pi es ps ts hA hI hS,
     c = CallSubmit cat ea pa ei pi es ps ts /\
     fromExternal ea pa = Some hA /\ isInitialized hA = true /\
     fromExternal ei pi = Some hI /\ isInitialized hI = true /\
     fromExternal es ps = Some hS /\ isInitialized hS = true /\
     transact c s = submitted s cat hA hI hS ts) \/
  (exists id pa pi ps,
     c = CallVerify id pa pi ps /\
     id < responseCount s /\ isVerified (responseAt s id) = false /\
     transact c s = verified s id) \/
  (exists cat n a i t,
     c = CallUpdate cat /\ 0 < totalResponses (statsAt s cat) /\
     transact c s = updated s cat n a i t).
Proof.
  unfold transact. destruct (run c s) as [[u s']|e] eqn:Hrun; [|left; eauto].
  right. destruct c; cbn in Hrun.
  - left. apply submitResponse_Ok in Hrun
      as (hA & hI & hS & EA & IA & EI & II & ES & IS & ->).
    do 11 eexists. repeat split; eauto.
  - right; left. apply verifyResponse_Ok in Hrun as (? & ? & ->).
    do 4 eexists. repeat split; eauto.
  - right; right. apply updateCategoryStats_Ok in Hrun as (? & acc & _ & ->).
    do 5 eexists. repeat split; eauto.
Qed.

Lemma responseCount_submitted s cat hA hI hS ts :
  responseCount (submitted s cat hA hI hS ts) = responseCount s + 1.
Proof. unfold responseCount. cbn. rewrite length_app. cbn. lia. Qed.

Lemma responseAt_submitted_new s cat hA hI hS ts :
  responseAt (submitted s cat hA hI hS ts) (responseCount s)
  = mkResponse hA hI hS cat ts false.
Proof. unfold responseAt. cbn. by rewrite lookup_insert_eq. Qed.

Lemma responseAt_submitted_old s cat hA hI hS ts id :
  id <> responseCount s ->
  responseAt (submitted s cat hA hI hS ts) id = responseAt s id.
Proof. intros Hne. unfold responseAt. cbn. by rewrite lookup_insert_ne. Qed.

Lemma responseAt_verified_same s id :
  responseAt (verified s id) id = setVerified (responseAt s id) true.
Proof. unfold responseAt at 1. cbn. by rewrite lookup_insert_eq. Qed.

Lemma responseAt_verified_other s id id' :
  id' <> id -> responseAt (verified s id) id' = responseAt s id'.
Proof. intros Hne. unfold responseAt at 1. cbn. by rewrite lookup_insert_ne. Qed.

(** A reading of the ledger that does not look at the flag. *)
Lemma ledger_submitted s cat hA hI hS ts :
  ledger (submitted s cat hA hI hS ts)
  = ledger s ++ [mkResponse hA hI hS cat ts false].
Proof.
  unfold ledger. cbn [responseIds submitted]. rewrite length_app. cbn [length].
  rewrite Nat.add_1_r, seq_S, fmap_app. cbn [fmap list_fmap Nat.add].
  fold (responseCount s). rewrite responseAt_submitted_new. f_equal.
  apply fmap_seq_ext. intros k Hk. apply responseAt_submitted_old.
  unfold responseCount. lia.
Qed.

Lemma ledger_verified {B} (f : EncryptedResponse -> B) s id :
  (forall r, f (setVerified r true) = f r) ->
  f <$> ledger (verified s id) = f <$> ledger s.
Proof.
  intros Hf. unfold ledger. cbn [responseIds verified].
  rewrite <- !list_fmap_compose. apply fmap_seq_ext. intros k _. cbn.
  destruct (decide (N.of_nat k = id)) as [->|Hne].
  - by rewrite responseAt_verified_same, Hf.
  - by rewrite responseAt_verified_other.
Qed.

Lemma ledger_lookup s k :
  (k < length (responseIds s))%nat ->
  ledger s !! k = Some (responseAt s (N.of_nat k)).
Proof.
  intros Hk. unfold ledger. rewrite list_lookup_fmap, lookup_seq_lt by done. done.
Qed.

Lemma length_ledger s : length (ledger s) = length (responseIds s).
Proof. unfold ledger. by rewrite length_fmap, length_seq. Qed.

(** The records stored are those of the ids handed out, and their handles
    are initialised. *)
Lemma reachable_records s :
  reachable s ->
  forall id,
    (responseCount s <= id -> responses s !! id = None) /\
    (id < responseCount s ->
     exists r, responses s !! id = Some r /\
               isInitialized (encryptedAge r) = true /\
               isInitialized (encryptedIncome r) = true /\
               isInitialized (encryptedSatisfaction r) = true).
Proof.
  induction 1 as [|s c Hs IH]; intros id.
  { split; [done|]. unfold responseCount. cbn. lia. }
  destruct (transact_inv c s) as [(e & _ & ->)|[
    (cat & ea & pa & ei & pi & es & ps & ts & hA & hI & hS & _ & _ & IA & _ & II & _ & IS & ->)|[
    (id' & pa & pi & ps & _ & Hlt & Hv & ->)|
    (cat & n & a & i & t & _ & _ & ->)]]]; [apply IH| | |apply IH].
  - rewrite responseCount_submitted. cbn [responses submitted]. split.
    + intros Hge. rewrite lookup_insert_ne by lia. apply IH. lia.
    + intros Hlt. destruct (decide (id = responseCount s)) as [->|Hne].
      * rewrite lookup_insert_eq. eexists. split; [done|]. done.
      * rewrite lookup_insert_ne by done. apply IH. lia.
  - change (responseCount (verified s id')) with (responseCount s).
    cbn [responses verified]. split.
    + intros Hge. rewrite lookup_insert_ne by lia. by apply IH.
    + intros Hlt'. destruct (decide (id = id')) as [->|Hne].
      * rewrite lookup_insert_eq. eexists. split; [done|].
        destruct (proj2 (IH id') Hlt) as (r & Hr & Hinit).
        unfold responseAt. rewrite Hr. cbn. done.
      * rewrite lookup_insert_ne by done. by apply IH.
Qed.

End Ledger.

(** X7. In every reachable state the mapping [responses] holds a record
    exactly at the ids below the number of responses; the three handles of
    each stored record are initialised, and any other id reads as the zero
    record. *)
Theorem stored_records_are_bound `{FHE : FHELib} (s : State) (id : N) :
  reachable s ->
  (id < responseCount s <-> is_Some (responses s !! id)) /\
  (id < responseCount s ->
   isInitialized (encryptedAge (responseAt s id)) = true /\
   isInitialized (encryptedIncome (responseAt s id)) = true /\
   isInitialized (encryptedSatisfaction (responseAt s id)) = true) /\
  (responseCount s <= id -> responseAt s id = zeroResponse).
Proof.
  intros Hs. destruct (reachable_records s Hs id) as [Hout Hin].
  split; [split|split].
  - intros Hlt. destruct (Hin Hlt) as (r & Hr & _). by exists r.
  - intros [r Hr]. destruct (N.lt_ge_cases id (responseCount s)) as [|Hge]; [done|].
    rewrite (Hout Hge) in Hr. discriminate.
  - intros Hlt. destruct (Hin Hlt) as (r & Hr & Hinit).
    unfold responseAt. by rewrite Hr.
  - intros Hge. unfold responseAt. by rewrite (Hout Hge).
Qed.

Lemma stored_records_are_bound_witness :
  let s := afterCalls [submitA; verifyA] in
  reachable s /\ 0 < responseCount s /\
  is_Some (responses s !! 0) /\
  isInitialized (encryptedAge (responseAt s 0)) = true.
Proof.
  assert (Hr : reachable (afterCalls [submitA; verifyA])).
  { exact (reachable_step _ _ (reachable_step _ _ reachable_init)). }
  assert (Hlt : 0 < responseCount (afterCalls [submitA; verifyA]))
    by (vm_compute; reflexivity).
  destruct (stored_records_are_bound _ 0 Hr) as (Hdom & Hinit & _).
  split; [exact Hr|]. split; [exact Hlt|].
  split; [exact (proj1 Hdom Hlt)|exact (proj1 (Hinit Hlt))].
Defined.

(** X8. In every reachable state the [ResponseSubmitted] events of the log
    are, in order, one per stored response, each carrying the id and the
    category of its record. *)
Theorem submitted_log_mirrors_ledger `{FHE : FHELib} (s : State) :
  reachable s ->
  submittedLog (events s)
  = (fun k => (N.of_nat k, publicCategory (responseAt s (N.of_nat k))))
      <$> seq 0 (length (responseIds s)).
Proof.
  induction 1 as [|s c Hs IH]; [done|].
  destruct (transact_inv c s) as [(e & _ & ->)|[
    (cat & ea & pa & ei & pi & es & ps & ts & hA & hI & hS & _ & _ & _ & _ & _ & _ & _ & ->)|[
    (id' & pa & pi & ps & _ & Hlt & Hv & ->)|
    (cat & n & a & i & t & _ & _ & ->)]]]; [done| | |].
  - cbn [events responseIds submitted]. unfold submittedLog in *.
    rewrite omap_app, IH, length_app. cbn [length omap list_omap].
    rewrite Nat.add_1_r, seq_S, fmap_app. cbn [fmap list_fmap Nat.add].
    fold (responseCount s). rewrite responseAt_submitted_new. cbn. f_equal.
    apply fmap_seq_ext. intros k Hk. f_equal.
    rewrite responseAt_submitted_old; [done|]. unfold responseCount. lia.
  - cbn [events responseIds verified]. unfold submittedLog in *.
    rewrite omap_app, IH. cbn [omap list_omap]. rewrite app_nil_r.
    apply fmap_seq_ext. intros k Hk. f_equal.
    destruct (decide (N.of_nat k = id')) as [->|Hne].
    + by rewrite responseAt_verified_same.
    + by rewrite responseAt_verified_other.
  - cbn [events responseIds updated]. unfold submittedLog in *.
    rewrite omap_app, IH. cbn [omap list_omap]. by rewrite app_nil_r.
Qed.

Lemma submitted_log_mirrors_ledger_witness :
  let s := afterCalls [submitA; verifyA; submitB] in
  reachable s /\ submittedLog (events s) = [(0, 7); (1, 7)].
Proof.
  assert (Hr : reachable (afterCalls [submitA; verifyA; submitB])).
  { exact (reachable_step _ _ (reachable_step _ _ (reachable_step _ _ reachable_init))). }
  split; [exact Hr|].
  rewrite (submitted_log_mirrors_ledger _ Hr). vm_compute. reflexivity.
Defined.

(** X9. In every reachable state the [ResponseVerified] events of the log
    name each verified response once and no other id: an id is in them
    exactly when it is below the number of responses and its record's flag
    is [true]. *)
Theorem verified_log_mirrors_flags `{FHE : FHELib} (s : State) :
  reachable s ->
  NoDup (verifiedLog (events s)) /\
  forall id, id ∈ verifiedLog (events s) <->
             id < responseCount s /\ isVerified (responseAt s id) = true.
Proof.
  induction 1 as [|s c Hs [IHnd IH]].
  { split; [constructor|]. intros id. unfold responseCount. cbn.
    split; [intros Hin; inversion Hin|lia]. }
  destruct (transact_inv c s) as [(e & _ & ->)|[
    (cat & ea & pa & ei & pi & es & ps & ts & hA & hI & hS & _ & _ & _ & _ & _ & _ & _ & ->)|[
    (id' & pa & pi & ps & _ & Hlt & Hv & ->)|
    (cat & n & a & i & t & _ & _ & ->)]]]; [done| | |].
  - cbn [events submitted]. unfold verifiedLog in *.
    rewrite omap_app. cbn [omap list_omap]. rewrite app_nil_r. split; [done|].
    intros id. rewrite IH, responseCount_submitted.
    destruct (decide (id = responseCount s)) as [->|Hne].
    + rewrite responseAt_submitted_new. cbn. split; [lia|intros [_ Hf]; discriminate].
    + rewrite responseAt_submitted_old by done. split; intros [Hl Hf]; split; try done; lia.
  - cbn [events verified]. unfold verifiedLog in *.
    rewrite omap_app. cbn [omap list_omap].
    change (responseCount (verified s id')) with (responseCount s).
    assert (Hnew : id' ∉ omap (fun e => match e with
                                        | ResponseVerified id => Some id
                                        | _ => None
                                        end) (events s)).
    { intros Hin. apply IH in Hin as [_ Hin]. congruence. }
    split.
    + apply NoDup_app. split; [done|]. split; [|apply NoDup_singleton].
      intros x Hx Hx'. apply list_elem_of_singleton in Hx'. by subst x.
    + intros id. rewrite elem_of_app, list_elem_of_singleton, IH.
      destruct (decide (id = id')) as [->|Hne].
      * rewrite responseAt_verified_same. cbn. split; [done|]. by right.
      * rewrite responseAt_verified_other by done.
        split; [intros [Hold|Heq]; done|intros Hold; by left].
  - cbn [events updated]. unfold verifiedLog in *.
    rewrite omap_app. cbn [omap list_omap]. rewrite app_nil_r. done.
Qed.

Lemma verified_log_mirrors_flags_witness :
  let s := afterCalls [submitA; submitB; verifyB; verifyB] in
  reachable s /\ verifiedLog (events s) = [1] /\
  (1 < responseCount s /\ isVerified (responseAt s 1) = true).
Proof.
  assert (Hr : reachable (afterCalls [submitA; submitB; verifyB; verifyB])).
  { exact (reachable_step _ _ (reachable_step _ _
             (reachable_step _ _ (reachable_step _ _ reachable_init)))). }
  destruct (verified_log_mirrors_flags _ Hr) as [_ Hiff].
  split; [exact Hr|]. split; [vm_compute; reflexivity|].
  apply Hiff. vm_compute. apply list_elem_of_here.
Defined.

Section Growth.
Context `{FHE : FHELib}.

Lemma transact_append_only c s :
  responseIds s `prefix_of` responseIds (transact c s) /\
  categoryIds s `prefix_of` categoryIds (transact c s) /\
  events s `prefix_of` events (transact c s) /\
  grants s `prefix_of` grants (transact c s).
Proof.
  destruct (transact_cases c s) as [->|[(cat & hA & hI & hS & ts & ->)|
    [(id & _ & _ & ->)|(cat & n & a & i & t & _ & ->)]]]; cbn.
  - done.
  - repeat split; try apply prefix_app_r; try done.
    destruct (totalResponses (statsAt s cat) =? 0); [by apply prefix_app_r|done].
  - repeat split; try done. by apply prefix_app_r.
  - repeat split; try done. by apply prefix_app_r.
Qed.

Lemma transact_counts c s :
  responseCount (transact c s)
  = responseCount s + (if acceptedSubmit c then 1 else 0).
Proof.
  destruct (transact_inv c s) as [(e & Herr & ->)|[
    (cat & ea & pa & ei & pi & es & ps & ts & hA & hI & hS
       & -> & EA & IA & EI & II & ES & IS & ->)|[
    (id' & pa & pi & ps & -> & _ & _ & ->)|
    (cat & n & a & i & t & -> & _ & ->)]]].
  - destruct c as [cat ea pa ei pi es ps ts| |]; cbn [acceptedSubmit]; try lia.
    unfold run in Herr.
    pose proof (submitResponse_outcome cat ea pa ei pi es ps ts s) as Hout.
    rewrite Herr in Hout. destruct Hout as [-> _]. lia.
  - rewrite responseCount_submitted. cbn. unfold accepted.
    by rewrite EA, EI, ES, IA, II, IS.
  - cbn. unfold responseCount. cbn. lia.
  - cbn. unfold responseCount. cbn. lia.
Qed.

(** The loop reads nothing but the records. *)
Lemma statsLoop_frame cat s1 s2 :
  responses s1 = responses s2 ->
  forall n i acc,
    statsLoop cat n i acc s2
    = match statsLoop cat n i acc s1 with
      | Ok (acc', _) => Ok (acc', s2)
      | Err e => Err e
      end.
Proof.
  intros Hresp. induction n as [|n IH]; intros i acc; [done|].
  assert (Hat : responseAt s2 i = responseAt s1 i).
  { unfold responseAt. by rewrite Hresp. }
  cbn [statsLoop]. unfold bind, gets, checkedInc, ret, throw. rewrite Hat.
  destruct ((publicCategory (responseAt s1 i) =? cat) && isVerified (responseAt s1 i)).
  - destruct (accCount acc <? uint32_max); [apply IH|done].
  - apply IH.
Qed.

End Growth.

(** X10. In every reachable state the grants made on the access-control
    list are, in order, the six of each stored record: the contract itself
    and public decryption are allowed on each of its three handles from the
    submission on, verified or not, and nothing else is ever granted. *)
Theorem grants_cover_ledger `{FHE : FHELib} (s : State) :
  reachable s ->
  grants s = concat (sixGrants <$> ledger s) /\
  forall id, id < responseCount s ->
    PubliclyDecryptable (encryptedAge (responseAt s id)) ∈ grants s /\
    PubliclyDecryptable (encryptedIncome (responseAt s id)) ∈ grants s /\
    PubliclyDecryptable (encryptedSatisfaction (responseAt s id)) ∈ grants s.
Proof.
  intros Hs.
  assert (Heq : grants s = concat (sixGrants <$> ledger s)).
  { induction Hs as [|s c Hs IH]; [done|].
    destruct (transact_cases c s) as [->|[(cat & hA & hI & hS & ts & ->)|
      [(id & _ & _ & ->)|(cat & n & a & i & t & _ & ->)]]].
    - done.
    - rewrite ledger_submitted, fmap_app, concat_app.
      cbn [grants submitted]. rewrite IH. cbn. reflexivity.
    - rewrite (ledger_verified sixGrants) by done. exact IH.
    - exact IH. }
  split; [exact Heq|].
  intros id Hlt.
  assert (Hin : forall g, g ∈ sixGrants (responseAt s id) -> g ∈ grants s).
  { intros g Hg. rewrite Heq. apply list_elem_of_In, in_concat.
    exists (sixGrants (responseAt s id)). split; [|by apply list_elem_of_In].
    apply list_elem_of_In, list_elem_of_fmap. exists (responseAt s id). split; [done|].
    apply list_elem_of_lookup. exists (N.to_nat id).
    rewrite ledger_lookup by (unfold responseCount in Hlt; lia).
    by rewrite N2Nat.id. }
  repeat split; apply Hin; unfold sixGrants; set_solver.
Qed.

Lemma grants_cover_ledger_witness :
  let s := afterCalls [submitA] in
  reachable s /\ 0 < responseCount s /\ isVerified (responseAt s 0) = false /\
  (PubliclyDecryptable 31 ∈ grants s).
Proof.
  assert (Hr : reachable (afterCalls [submitA])).
  { exact (reachable_step _ _ reachable_init). }
  assert (Hlt : 0 < responseCount (afterCalls [submitA])) by (vm_compute; reflexivity).
  destruct (grants_cover_ledger _ Hr) as [_ Hall].
  split; [exact Hr|]. split; [exact Hlt|]. split; [vm_compute; reflexivity|].
  exact (proj1 (Hall 0 Hlt)).
Defined.

(** X11. In every reachable state the category index is the list of the
    categories of the stored responses in id order: it has one entry per
    response, and a category is in it exactly when some stored response
    carries it. *)
Theorem category_index_mirrors_ledger `{FHE : FHELib} (s : State) :
  reachable s ->
  categoryIds s = publicCategory <$> ledger s /\
  length (categoryIds s) = length (responseIds s) /\
  forall c, c ∈ categoryIds s <->
            exists id, id < responseCount s /\ publicCategory (responseAt s id) = c.
Proof.
  intros Hs. pose proof (reachable_categoryIds s Hs) as Heq.
  split; [exact Heq|]. split.
  { by rewrite Heq, length_fmap, length_ledger. }
  intros c. rewrite Heq, list_elem_of_fmap. split.
  - intros (r & -> & Hr). apply list_elem_of_lookup in Hr as [k Hk].
    assert (Hlt : (k < length (responseIds s))%nat).
    { apply lookup_lt_Some in Hk. by rewrite length_ledger in Hk. }
    rewrite ledger_lookup in Hk by done. injection Hk as <-.
    exists (N.of_nat k). split; [unfold responseCount; lia|done].
  - intros (id & Hlt & <-). exists (responseAt s id). split; [done|].
    apply list_elem_of_lookup. exists (N.to_nat id).
    rewrite ledger_lookup by (unfold responseCount in Hlt; lia).
    by rewrite N2Nat.id.
Qed.

Lemma category_index_mirrors_ledger_witness :
  let s := afterCalls [submitA; submitB; verifyA] in
  reachable s /\ categoryIds s = [7; 7] /\ length (responseIds s) = 2%nat.
Proof.
  assert (Hr : reachable (afterCalls [submitA; submitB; verifyA])).
  { exact (reachable_step _ _ (reachable_step _ _ (reachable_step _ _ reachable_init))). }
  destruct (category_index_mirrors_ledger _ Hr) as (Heq & _ & _).
  split; [exact Hr|]. split; [|vm_compute; reflexivity].
  rewrite Heq. vm_compute. reflexivity.
Defined.

(** X12. The two arrays, the log and the grants only grow: after any run
    of transactions from any storage each of them starts with what it was
    before. *)
Theorem storage_is_append_only `{FHE : FHELib} (s : State) (cs : list Call) :
  responseIds s `prefix_of` responseIds (transactAll cs s) /\
  categoryIds s `prefix_of` categoryIds (transactAll cs s) /\
  events s `prefix_of` events (transactAll cs s) /\
  grants s `prefix_of` grants (transactAll cs s).
Proof.
  revert s. induction cs as [|c cs IH]; intros s; cbn [transactAll fold_left]; [done|].
  destruct (transact_append_only c s) as (H1 & H2 & H3 & H4).
  destruct (IH (transact c s)) as (H1' & H2' & H3' & H4').
  repeat split; etrans; eauto.
Qed.

(** X13. The number of stored responses after a run is the number before
    plus the number of [submitResponse] calls of the run whose three inputs
    the validator accepts; calls of the other two functions and rejected
    submissions do not move it. *)
Theorem responses_count_accepted_submissions `{FHE : FHELib} (s : State) (cs : list Call) :
  responseCount (transactAll cs s)
  = responseCount s + N.of_nat (length (List.filter acceptedSubmit cs)).
Proof.
  revert s. induction cs as [|c cs IH]; intros s; cbn [transactAll fold_left List.filter].
  - cbn. lia.
  - fold (transactAll cs (transact c s)). rewrite IH, transact_counts.
    destruct (acceptedSubmit c); cbn [length]; lia.
Qed.

(** X14. On any storage, after [updateCategoryStats] has succeeded for a
    category: when it counted at least one verified response, a second call
    succeeds, stores the same statistics and adds only its [StatsUpdated]
    event; when it counted none, it has stored a zero count and the second
    call reverts with "Category has no responses". *)
Theorem recompute_again `{FHE : FHELib} (s s1 : State) (cat : N) :
  updateCategoryStats cat s = Ok (tt, s1) ->
  (verifiedOf s cat <> [] ->
   exists s2, updateCategoryStats cat s1 = Ok (tt, s2) /\
              statsAt s2 cat = statsAt s1 cat /\
              responses s2 = responses s1 /\
              events s2 = events s1 ++ [StatsUpdated cat (totalResponses (statsAt s1 cat))]) /\
  (verifiedOf s cat = [] ->
   totalResponses (statsAt s1 cat) = 0 /\
   updateCategoryStats cat s1 = Err (Revert "Category has no responses")).
Proof.
  intros Hupd. apply updateCategoryStats_Ok in Hupd as (_ & acc & Hloop & ->).
  pose proof (statsLoop_spec _ _ _ _ _ _ _ Hloop) as (Hc & _).
  rewrite <- ledger_ledgerFrom in Hc. fold (verifiedOf s cat) in Hc. cbn in Hc.
  set (s1 := updated s cat (accCount acc) (accAge acc) (accIncome acc)
               (accSatisfaction acc)).
  assert (Hstats : statsAt s1 cat
                   = mkStats (accCount acc) (accAge acc) (accIncome acc)
                             (accSatisfaction acc)).
  { unfold statsAt, s1. cbn. by rewrite lookup_insert_eq. }
  split.
  - intros Hne.
    assert (Hpos : (0 <? accCount acc) = true).
    { apply N.ltb_lt. destruct (verifiedOf s cat); [done|]. cbn in Hc. lia. }
    pose proof (statsLoop_frame cat s s1 eq_refl (length (responseIds s)) 0
                  (mkAcc 0 0 0 0)) as Hframe.
    rewrite Hloop in Hframe.
    exists (updated s1 cat (accCount acc) (accAge acc) (accIncome acc)
              (accSatisfaction acc)).
    split.
    + unfold updateCategoryStats, bind, gets, require, ret, throw.
      rewrite Hstats. cbn [totalResponses]. rewrite Hpos.
      change (length (responseIds s1)) with (length (responseIds s)).
      rewrite Hframe. reflexivity.
    + rewrite Hstats. split; [|done].
      unfold statsAt. cbn. by rewrite lookup_insert_eq.
  - intros Hnil. rewrite Hnil in Hc. cbn in Hc.
    assert (Hz : totalResponses (statsAt s1 cat) = 0) by (rewrite Hstats; cbn; lia).
    split; [exact Hz|]. by apply updateCategoryStats_empty.
Qed.

Lemma recompute_again_witness :
  let s1 := updated primed 7 2 71 90001 15 in
  updateCategoryStats 7 primed = Ok (tt, s1) /\
  verifiedOf primed 7 <> [] /\
  exists s2, updateCategoryStats 7 s1 = Ok (tt, s2) /\ statsAt s2 7 = mkStats 2 71 90001 15.
Proof.
  assert (Hupd : updateCategoryStats 7 primed = Ok (tt, updated primed 7 2 71 90001 15))
    by (vm_compute; reflexivity).
  assert (Hne : verifiedOf primed 7 <> []) by (vm_compute; discriminate).
  destruct (recompute_again _ _ _ Hupd) as [Hagain _].
  destruct (Hagain Hne) as (s2 & Hs2 & Hst & _).
  split; [exact Hupd|]. split; [exact Hne|].
  exists s2. split; [exact Hs2|]. rewrite Hst. vm_compute. reflexivity.
Defined.

(** X15. With a decryption of handles under which [FHE.add] is addition
    modulo [2^32] and the zero handle decrypts to zero, the three sums a
    successful [updateCategoryStats] stores decrypt to the sums, modulo
    [2^32], of the plaintexts of the verified responses of the category. *)
Theorem recompute_decrypts_to_sums `{FHE : FHELib} (dec : N -> N)
    (s s' : State) (cat : N) :
  dec 0 = 0 ->
  (forall a b, dec (add a b) = (dec a + dec b) mod 2 ^ 32) ->
  updateCategoryStats cat s = Ok (tt, s') ->
  let vs := verifiedOf s cat in
  dec (sumAge (statsAt s' cat))
    = foldr N.add 0 (dec <$> (encryptedAge <$> vs)) mod 2 ^ 32 /\
  dec (sumIncome (statsAt s' cat))
    = foldr N.add 0 (dec <$> (encryptedIncome <$> vs)) mod 2 ^ 32 /\
  dec (sumSatisfaction (statsAt s' cat))
    = foldr N.add 0 (dec <$> (encryptedSatisfaction <$> vs)) mod 2 ^ 32.
Proof.
  intros Hzero Hadd Hupd vs.
  apply updateCategoryStats_Ok in Hupd as (_ & acc & Hloop & ->).
  pose proof (statsLoop_spec _ _ _ _ _ _ _ Hloop) as (_ & Ha & Hi & Hs).
  rewrite <- ledger_ledgerFrom in Ha, Hi, Hs.
  fold (verifiedOf s cat) in Ha, Hi, Hs. fold vs in Ha, Hi, Hs. cbn in Ha, Hi, Hs.
  unfold statsAt, updated. cbn. rewrite lookup_insert_eq. cbn.
  rewrite Ha, Hi, Hs.
  repeat split; apply (homSum_decrypts dec); done.
Qed.

Lemma plainDec_add (a b : N) :
  plainDec (add a b) = (plainDec a + plainDec b) mod 2 ^ 32.
Proof.
  assert (Hsucc : forall x, plainDec (x + 1) = x).
  { intros x. unfold plainDec. destruct (x + 1 =? 0) eqn:Hz; [|lia].
    apply N.eqb_eq in Hz. lia. }
  cbn [add plainFHE]. unfold plainAdd. rewrite Hsucc. reflexivity.
Qed.

Lemma recompute_decrypts_to_sums_witness :
  let s' := updated primed 7 2 71 90001 15 in
  plainDec 0 = 0 /\
  updateCategoryStats 7 primed = Ok (tt, s') /\
  plainDec (sumSatisfaction (statsAt s' 7)) = 14.
Proof.
  assert (Hupd : updateCategoryStats 7 primed = Ok (tt, updated primed 7 2 71 90001 15))
    by (vm_compute; reflexivity).
  destruct (recompute_decrypts_to_sums plainDec _ _ _ eq_refl plainDec_add Hupd)
    as (_ & _ & Hsat).
  split; [reflexivity|]. split; [exact Hupd|].
  rewrite Hsat. vm_compute. reflexivity.
Defined.

(** * Properties of the page *)

Section Form.
Import Page.

Lemma allDigits_digitsOnly v : allDigits (digitsOnly v) = true.
Proof.
  induction v as [|c v IH]; [done|]. cbn.
  destruct (isDigit c) eqn:Hc; [|done]. cbn. by rewrite Hc.
Qed.

Lemma digitsOnly_id v : allDigits v = true -> digitsOnly v = v.
Proof.
  induction v as [|c v IH]; [done|]. cbn.
  intros Hall. apply andb_true_iff in Hall as [Hc Hv]. rewrite Hc. by rewrite IH.
Qed.

Lemma handleChange_keeps_digits d n v :
  (exists sc, d !! "score" = Some sc /\ allDigits sc = true) ->
  exists sc, handleChange d n v !! "score" = Some sc /\ allDigits sc = true.
Proof.
  intros (sc & Hsc & Hall). unfold handleChange.
  destruct (decide (n = "score")) as [->|Hne].
  - rewrite lookup_insert_eq. eauto using allDigits_digitsOnly.
  - rewrite lookup_insert_ne by done. eauto.
Qed.

End Form.

(** X16. The score field of the creation form holds decimal digits only:
    whatever change events [handleChange] receives after that, and for
    whatever inputs, the field stays a string of digits; a change of the
    score stores the digits of the typed value in their order (the value
    itself when it is all digits), and a change of another input stores the
    value as typed and leaves every other field. *)
Theorem score_field_keeps_digits
    (surveyData : gmap string string) (changes : list (string * string)) :
  (exists sc, surveyData !! "score" = Some sc /\ Page.allDigits sc = true) ->
  let after := fold_left (fun d '(n, v) => Page.handleChange d n v) changes surveyData in
  (exists sc, after !! "score" = Some sc /\ Page.allDigits sc = true) /\
  (forall v, Page.handleChange after "score" v !! "score" = Some (Page.digitsOnly v) /\
             (Page.allDigits v = true -> Page.digitsOnly v = v)) /\
  (forall n v k, n <> "score" ->
     Page.handleChange after n v !! n = Some v /\
     (k <> n -> Page.handleChange after n v !! k = after !! k)).
Proof.
  intros Hinv after.
  assert (Hafter : exists sc, after !! "score" = Some sc /\ Page.allDigits sc = true).
  { subst after. revert surveyData Hinv.
    induction changes as [|[n v] changes IH]; intros d Hd; [done|].
    cbn [fold_left]. apply IH. by apply handleChange_keeps_digits. }
  split; [exact Hafter|]. split.
  - intros v. split; [|apply digitsOnly_id].
    unfold Page.handleChange. rewrite decide_True by done. by rewrite lookup_insert_eq.
  - intros n v k Hne. unfold Page.handleChange. rewrite decide_False by done.
    split; [by rewrite lookup_insert_eq|]. intros Hk. by rewrite lookup_insert_ne.
Qed.

Lemma score_field_keeps_digits_witness :
  (exists sc, Page.emptyForm !! "score" = Some sc /\ Page.allDigits sc = true) /\
  formFilled !! "score" = Some "8" /\
  formFilled !! "name" = Some "Coffee".
Proof.
  assert (Hinit : exists sc, Page.emptyForm !! "score" = Some sc /\ Page.allDigits sc = true).
  { exists "". split; reflexivity. }
  pose proof (score_field_keeps_digits Page.emptyForm
                [("name", "Coffee"); ("score", "8a"); ("description", "fine")] Hinit)
    as (_ & _ & _).
  split; [exact Hinit|]. split; vm_compute; reflexivity.
Defined.

(** Membership in a list that is written out. *)
Ltac in_cases H :=
  repeat first
    [ apply elem_of_app in H as [H|H]
    | apply elem_of_cons in H as [H|H]
    | apply elem_of_nil in H; destruct H ];
  try discriminate H.

Ltac in_list :=
  repeat first
    [ apply list_elem_of_here
    | apply list_elem_of_further ].

(** X17. [createSurvey] sends the score in the clear beside its
    encryption: whenever a run calls [createBusinessData], the value passed
    as [publicValue1] is [parseInt(score) || 0], the very value the run
    handed to [encrypt] just before, and the ciphertext and proof passed are
    those [encrypt] returned; [publicValue2] is 0 and the id is "survey-"
    followed by [Date.now()]. *)
Theorem createSurvey_sends_score_in_clear {score : Type}
    (zero : score) (truthy : score -> bool) (parseInt : string -> score)
    (env : Page.Env) (businessId : string) (name : option string)
    (data proof : string) (pv1 pv2 : score) (description : option string) :
  Page.CreateBusinessData businessId name data proof pv1 pv2 description
    ∈ Page.createSurvey zero truthy parseInt env ->
  let scoreValue :=
    Page.orZeroScore zero truthy
      (parseInt (default "undefined" (Page.newSurveyData env !! "score"))) in
  pv1 = scoreValue /\ pv2 = zero /\
  businessId = "survey-" +:+ pretty (Page.now env) /\
  name = Page.newSurveyData env !! "name" /\
  description = Page.newSurveyData env !! "description" /\
  exists user result,
    Page.address env = Some user /\
    Page.encrypt env (Page.contractAddress env) user scoreValue = Client.Returns result /\
    data = Page.encryptedData result /\ proof = Page.proof result /\
    Page.Encrypt (Page.contractAddress env) user scoreValue
      ∈ Page.createSurvey zero truthy parseInt env.
Proof.
  intros Hin scoreValue. revert Hin.
  unfold Page.createSurvey.
  destruct (Page.isConnected env); [|solve [intros Hin; in_cases Hin]].
  destruct (Page.address env) as [[|c rest]|]; try solve [intros Hin; in_cases Hin].
  unfold Page.createSurvey_try, Page.pbind, Page.await, Page.effect, Page.throwError.
  fold scoreValue.
  destruct (Page.getContractWithSigner env) as [[contract|]|m]; cbn;
    try solve [intros Hin; in_cases Hin].
  destruct (Page.encrypt env (Page.contractAddress env) (String c rest) scoreValue)
    as [result|m] eqn:Henc; cbn; try solve [intros Hin; in_cases Hin].
  destruct (Page.createBusinessData contract _ _ _ _ _ _ _) as [tx|m]; cbn.
  - destruct (Page.wait tx) as [[]|m]; cbn; intros Hin; in_cases Hin;
      injection Hin as -> -> -> -> -> -> ->;
      (repeat split; try done); exists (String c rest), result;
      (repeat split; try done); in_list.
  - intros Hin; in_cases Hin; injection Hin as -> -> -> -> -> -> ->;
      (repeat split; try done); exists (String c rest), result;
      (repeat split; try done); in_list.
Qed.

Lemma createSurvey_sends_score_in_clear_witness :
  Page.CreateBusinessData "survey-1700000000000" (Some "Coffee") "0xE8" "0xF0"
      (Client.Num 8) (Client.Num 0) (Some "fine")
    ∈ Page.createSurvey (Client.Num 0) truthyNumber parseDigits (pageEnv signerOk) /\
  Page.Encrypt "0x5EED" "0xa11ce" (Client.Num 8)
    ∈ Page.createSurvey (Client.Num 0) truthyNumber parseDigits (pageEnv signerOk).
Proof.
  assert (Hin : Page.CreateBusinessData "survey-1700000000000" (Some "Coffee") "0xE8" "0xF0"
                  (Client.Num 8) (Client.Num 0) (Some "fine")
                ∈ Page.createSurvey (Client.Num 0) truthyNumber parseDigits (pageEnv signerOk)).
  { vm_compute. in_list. }
  split; [exact Hin|].
  destruct (createSurvey_sends_score_in_clear _ _ _ _ _ _ _ _ _ _ _ Hin)
    as (_ & _ & _ & _ & _ & user & result & Huser & _ & _ & _ & Henc).
  injection Huser as <-. exact Henc.
Defined.

(** X18. [createSurvey] reloads the list, closes the modal and resets the
    form only in a run in which the signer was there and [encrypt],
    [createBusinessData] and [tx.wait] all returned; the run is then the
    thirteen effects below, the form is reset to its initial value, and no
    error status is shown. In every other run the form and the modal are
    left as they are. *)
Theorem createSurvey_resets_only_when_confirmed {score : Type}
    (zero : score) (truthy : score -> bool) (parseInt : string -> score)
    (env : Page.Env) :
  let run := Page.createSurvey zero truthy parseInt env in
  let scoreValue :=
    Page.orZeroScore zero truthy
      (parseInt (default "undefined" (Page.newSurveyData env !! "score"))) in
  let businessId := "survey-" +:+ pretty (Page.now env) in
  Page.LoadData ∈ run \/ Page.SetShowCreateModal false ∈ run \/
  (exists d, Page.SetNewSurveyData d ∈ run) ->
  exists user contract result tx,
    Page.isConnected env = true /\
    Page.address env = Some user /\
    Page.getContractWithSigner env = Client.Returns (Some contract) /\
    Page.encrypt env (Page.contractAddress env) user scoreValue = Client.Returns result /\
    Page.createBusinessData contract businessId (Page.newSurveyData env !! "name")
      (Page.encryptedData result) (Page.proof result) scoreValue zero
      (Page.newSurveyData env !! "description") = Client.Returns tx /\
    Page.wait tx = Client.Returns tt /\
    run = [Page.SetCreatingSurvey true;
           Page.SetTransactionStatus true Client.StatusPending
             "Creating survey with Zama FHE...";
           Page.GetContractWithSigner;
           Page.Encrypt (Page.contractAddress env) user scoreValue;
           Page.CreateBusinessData businessId (Page.newSurveyData env !! "name")
             (Page.encryptedData result) (Page.proof result) scoreValue zero
             (Page.newSurveyData env !! "description");
           Page.SetTransactionStatus true Client.StatusPending
             "Waiting for transaction confirmation...";
           Page.TxWait;
           Page.SetTransactionStatus true Client.StatusSuccess
             "Survey submitted successfully!";
           Page.HideStatusAfter 2000;
           Page.LoadData;
           Page.SetShowCreateModal false;
           Page.SetNewSurveyData Page.emptyForm;
           Page.SetCreatingSurvey false].
Proof.
  intros run scoreValue businessId. subst run.
  unfold Page.createSurvey.
  destruct (Page.isConnected env);
    [|solve [intros [Hin|[Hin|[d Hin]]]; in_cases Hin]].
  destruct (Page.address env) as [[|c rest]|];
    try solve [intros [Hin|[Hin|[d Hin]]]; in_cases Hin].
  unfold Page.createSurvey_try, Page.pbind, Page.await, Page.effect, Page.throwError.
  fold scoreValue. fold businessId.
  destruct (Page.getContractWithSigner env) as [[contract|]|m]; cbn;
    try solve [intros [Hin|[Hin|[d Hin]]]; in_cases Hin].
  destruct (Page.encrypt env (Page.contractAddress env) (String c rest) scoreValue)
    as [result|m] eqn:Henc; cbn;
    try solve [intros [Hin|[Hin|[d Hin]]]; in_cases Hin].
  destruct (Page.createBusinessData contract _ _ _ _ _ _ _) as [tx|m] eqn:Hcall; cbn;
    try solve [intros [Hin|[Hin|[d Hin]]]; in_cases Hin].
  destruct (Page.wait tx) as [[]|m] eqn:Hwait; cbn;
    try solve [intros [Hin|[Hin|[d Hin]]]; in_cases Hin].
  intros _. exists (String c rest), contract, result, tx. done.
Qed.

Lemma createSurvey_resets_only_when_confirmed_witness :
  Page.LoadData ∈ Page.createSurvey (Client.Num 0) truthyNumber parseDigits (pageEnv signerOk) /\
  last (Page.createSurvey (Client.Num 0) truthyNumber parseDigits (pageEnv signerOk))
    = Some (Page.SetCreatingSurvey false).
Proof.
  assert (Hin : Page.LoadData
                ∈ Page.createSurvey (Client.Num 0) truthyNumber parseDigits (pageEnv signerOk)).
  { vm_compute. in_list. }
  split; [exact Hin|].
  destruct (createSurvey_resets_only_when_confirmed (Client.Num 0) truthyNumber parseDigits
              (pageEnv signerOk) (or_introl Hin))
    as (user & contract & result & tx & _ & _ & _ & _ & _ & _ & Hrun).
  rewrite Hrun. reflexivity.
Defined.



Section Loading.
Import Page.
Context {score : Type}.

Lemma loadLoop_spec (contract : ReadContract) (businessIds : list string) :
  forall surveysList,
    snd (loadLoop (score := score) contract businessIds surveysList)
      = surveysList ++ readable contract businessIds /\
    length (List.filter isConsoleError
              (fst (loadLoop (score := score) contract businessIds surveysList)))
      = length (List.filter (fun i => isThrow (getBusinessData contract i)) businessIds) /\
    (forall e, e ∈ fst (loadLoop (score := score) contract businessIds surveysList) ->
       (exists i, e = GetBusinessData i /\ i ∈ businessIds) \/
       (exists label, e = ConsoleError label)).
Proof.
  induction businessIds as [|i ids IH]; intros acc.
  - cbn. rewrite app_nil_r. repeat split; try done. intros e He. inversion He.
  - cbn [loadLoop readable omap list_omap List.filter].
    destruct (getBusinessData contract i) as [d|m] eqn:Hd.
    + specialize (IH (acc ++ [toSurvey i d])).
      destruct (loadLoop contract ids (acc ++ [toSurvey i d])) as [l r].
      cbn [fst snd] in *. destruct IH as (IH1 & IH2 & IH3).
      cbn [isThrow List.filter isConsoleError].
      split; [by rewrite IH1, <- app_assoc|]. split; [done|].
      intros e He. apply elem_of_cons in He as [->|He].
      * left. exists i. split; [done|]. apply list_elem_of_here.
      * destruct (IH3 e He) as [(j & -> & Hj)|Hc]; [|by right].
        left. exists j. split; [done|]. by apply list_elem_of_further.
    + specialize (IH acc).
      destruct (loadLoop contract ids acc) as [l r].
      cbn [fst snd] in *. destruct IH as (IH1 & IH2 & IH3).
      cbn [isThrow List.filter isConsoleError length].
      split; [done|]. split; [by rewrite IH2|].
      intros e He. apply elem_of_cons in He as [->|He].
      * left. exists i. split; [done|]. apply list_elem_of_here.
      * apply elem_of_cons in He as [->|He]; [right; eauto|].
        destruct (IH3 e He) as [(j & -> & Hj)|Hc]; [|by right].
        left. exists j. split; [done|]. by apply list_elem_of_further.
Qed.

Lemma readable_spec (contract : ReadContract) (businessIds : list string) sv :
  sv ∈ readable contract businessIds ->
  category sv = "商业" /\ encryptedValue sv = None /\ id sv ∈ businessIds /\
  exists d, getBusinessData contract (id sv) = Client.Returns d /\ sv = toSurvey (id sv) d.
Proof.
  unfold readable. intros Hin. apply list_elem_of_omap in Hin as (i & Hi & Hsv).
  destruct (getBusinessData contract i) as [d|m] eqn:Hd; [|discriminate].
  injection Hsv as <-. cbn. repeat split; try done. by exists d.
Qed.

End Loading.

(** X20. With the wallet connected, the contract there and the list of ids
    read, [loadData] hands to [setSurveys] and to [calculateStats] one
    survey per id whose [getBusinessData] returned, in the order of the
    ids; an id whose read throws is skipped with one [console.error] and
    shows no error status. Every survey listed has the category "商业" and a
    [null] encrypted value whatever the chain holds, and the history is the
    surveys whose creator equals the address up to case. *)
Theorem loadData_lists_readable {score : Type} (toLowerCase : string -> string)
    (env : Page.Env (score := score)) (contract : Page.ReadContract)
    (businessIds : list string) :
  Page.isConnected env = true ->
  Page.getContractReadOnly env = Client.Returns (Some contract) ->
  Page.getAllBusinessIds contract = Client.Returns businessIds ->
  let surveys := Page.readable contract businessIds in
  let reads := fst (Page.loadLoop contract businessIds []) in
  Page.loadData toLowerCase env =
    [Page.SetIsRefreshing true; Page.GetContractReadOnly; Page.GetAllBusinessIds]
    ++ reads
    ++ [Page.SetSurveys surveys; Page.CalculateStats surveys]
    ++ match Page.address env with
       | Some (String _ _ as user) =>
           [Page.SetUserHistory (List.filter (Page.ownedBy toLowerCase user) surveys)]
       | _ => []
       end
    ++ [Page.SetIsRefreshing false] /\
  (forall e, e ∈ reads ->
     (exists i, e = Page.GetBusinessData i /\ i ∈ businessIds) \/
     (exists label, e = Page.ConsoleError label)) /\
  length (List.filter Page.isConsoleError reads)
    = length (List.filter (fun i => Page.isThrow (Page.getBusinessData contract i))
                businessIds) /\
  (forall sv, sv ∈ surveys ->
     Page.category sv = "商业" /\ Page.encryptedValue sv = None /\
     Page.id sv ∈ businessIds /\
     exists d, Page.getBusinessData contract (Page.id sv) = Client.Returns d /\
               sv = Page.toSurvey (Page.id sv) d).
Proof.
  intros Hc Hread Hids surveys reads.
  destruct (loadLoop_spec (score := score) contract businessIds []) as (Hsnd & Hcount & Heff).
  split; [|split; [exact Heff|split; [exact Hcount|apply readable_spec]]].
  unfold Page.loadData. rewrite Hc. cbn [negb].
  unfold Page.loadData_try, Page.pbind, Page.await, Page.effect, Page.effects, Page.pret.
  rewrite Hread, Hids. subst reads surveys.
  destruct (Page.loadLoop contract businessIds []) as [l r]. cbn [fst snd] in *.
  rewrite app_nil_l in Hsnd. subst r.
  destruct (Page.address env) as [[|c rest]|]; cbn; rewrite <- ?app_assoc; cbn;
    rewrite ?app_nil_r; reflexivity.
Qed.

Lemma loadData_lists_readable_witness :
  Page.isConnected (pageEnv signerOk) = true /\
  Page.getContractReadOnly (pageEnv signerOk) = Client.Returns (Some readerThree) /\
  Page.getAllBusinessIds readerThree = Client.Returns ["a"; "b"; "c"] /\
  Page.id <$> Page.readable readerThree ["a"; "b"; "c"] = ["a"; "c"] /\
  Page.SetUserHistory [Page.toSurvey "a" (recordOf "0xA11CE")]
    ∈ Page.loadData lowerLetters (pageEnv signerOk).
Proof.
  destruct (loadData_lists_readable lowerLetters (pageEnv signerOk) readerThree
              ["a"; "b"; "c"] eq_refl eq_refl eq_refl) as (Hrun & _).
  split; [reflexivity|]. split; [reflexivity|]. split; [reflexivity|].
  split; [vm_compute; reflexivity|].
  rewrite Hrun. vm_compute. in_list.
Defined.

(** X21. [loadData] replaces the list of surveys only in a run in which
    the contract was there and [getAllBusinessIds] returned, and shows its
    error status "Failed to load data" only when [getContractReadOnly] or
    [getAllBusinessIds] throws, never for a failing [getBusinessData];
    without a connection it does nothing, and when it starts it ends by
    clearing the refreshing flag. *)
Theorem loadData_replaces_list_after_ids {score : Type} (toLowerCase : string -> string)
    (env : Page.Env (score := score)) :
  let run := Page.loadData toLowerCase env in
  (Page.isConnected env = false -> run = []) /\
  (Page.isConnected env = true ->
   exists l, run = [Page.SetIsRefreshing true] ++ l ++ [Page.SetIsRefreshing false]) /\
  (forall surveys, Page.SetSurveys surveys ∈ run ->
     exists contract businessIds,
       Page.getContractReadOnly env = Client.Returns (Some contract) /\
       Page.getAllBusinessIds contract = Client.Returns businessIds /\
       surveys = Page.readable contract businessIds) /\
  (forall visible status message,
     Page.SetTransactionStatus visible status message ∈ run ->
     message = "Failed to load data" /\ status = Client.StatusError /\
     (Page.isThrow (Page.getContractReadOnly env) = true \/
      exists contract,
        Page.getContractReadOnly env = Client.Returns (Some contract) /\
        Page.isThrow (Page.getAllBusinessIds contract) = true)).
Proof.
  intros run. subst run. unfold Page.loadData.
  destruct (Page.isConnected env); cbn [negb].
  2:{ split; [done|]. split; [discriminate|].
      split; [intros ? Hin; inversion Hin|intros ? ? ? Hin; inversion Hin]. }
  split; [discriminate|]. split; [eauto|].
  unfold Page.loadData_try, Page.pbind, Page.await, Page.effect, Page.effects, Page.pret.
  destruct (Page.getContractReadOnly env) as [[contract|]|m]; cbn [app Page.isThrow].
  - destruct (Page.getAllBusinessIds contract) as [ids|m] eqn:Hids.
    + destruct (loadLoop_spec (score := score) contract ids []) as (Hsnd & _ & Heff).
      destruct (Page.loadLoop contract ids []) as [l r]. cbn [fst snd] in *.
      rewrite app_nil_l in Hsnd. subst r.
      split.
      * intros surveys Hin. exists contract, ids. split; [done|]. split; [done|].
        destruct (Page.address env) as [[|c rest]|]; cbn in Hin; in_cases Hin;
          try (by injection Hin as ->);
          try (apply Heff in Hin as [(i & Hi & _)|(lbl & Hl)]; discriminate).
      * intros visible status message Hin. exfalso.
        destruct (Page.address env) as [[|c rest]|]; cbn in Hin; in_cases Hin;
          apply Heff in Hin as [(i & Hi & _)|(lbl & Hl)]; discriminate.
    + split.
      * intros surveys Hin. cbn in Hin. in_cases Hin.
      * intros visible status message Hin. cbn in Hin. in_cases Hin.
        injection Hin as -> -> ->. split; [done|]. split; [done|].
        right. exists contract. by rewrite Hids.
  - split.
    + intros surveys Hin. cbn in Hin. in_cases Hin.
    + intros visible status message Hin. cbn in Hin. in_cases Hin.
  - split.
    + intros surveys Hin. cbn in Hin. in_cases Hin.
    + intros visible status message Hin. cbn in Hin. in_cases Hin.
      injection Hin as -> -> ->. split; [done|]. split; [done|]. by left.
Qed.

Lemma loadData_replaces_list_after_ids_witness :
  Page.isConnected (pageEnv signerOk) = true /\
  Page.SetSurveys (Page.readable readerThree ["a"; "b"; "c"])
    ∈ Page.loadData lowerLetters (pageEnv signerOk) /\
  last (Page.loadData lowerLetters (pageEnv signerOk)) = Some (Page.SetIsRefreshing false).
Proof.
  destruct (loadData_replaces_list_after_ids lowerLetters (pageEnv signerOk))
    as (_ & Hends & _ & _).
  destruct (Hends eq_refl) as [l Hl].
  split; [reflexivity|]. split; [vm_compute; in_list|].
  rewrite Hl, app_assoc. apply last_snoc.
Defined.

(** X22. [testAvailability] does not look at what [isAvailable] returns:
    when the contract is there and the call returns, the status shown is
    the success "Contract is available and working!" for [true] and for
    [false] alike; only a throw gives "Contract test failed", and a missing
    contract gives no status at all. *)
Theorem testAvailability_ignores_answer {score : Type}
    (env : Page.Env (score := score)) :
  (forall contract answer,
     Page.getContractReadOnly env = Client.Returns (Some contract) ->
     Page.isAvailable contract = Client.Returns answer ->
     Page.testAvailability env =
       [Page.GetContractReadOnly; Page.IsAvailable;
        Page.SetTransactionStatus true Client.StatusSuccess
          "Contract is available and working!";
        Page.HideStatusAfter 2000]) /\
  (Page.getContractReadOnly env = Client.Returns None ->
   Page.testAvailability env = [Page.GetContractReadOnly]) /\
  (forall message, Page.SetTransactionStatus true Client.StatusError message
                   ∈ Page.testAvailability env ->
     message = "Contract test failed" /\
     (Page.isThrow (Page.getContractReadOnly env) = true \/
      exists contract,
        Page.getContractReadOnly env = Client.Returns (Some contract) /\
        Page.isThrow (Page.isAvailable contract) = true)).
Proof.
  unfold Page.testAvailability, Page.testAvailability_try, Page.pbind, Page.await,
    Page.effect, Page.pret.
  split; [|split].
  - intros contract answer -> ->. reflexivity.
  - intros ->. reflexivity.
  - intros message.
    destruct (Page.getContractReadOnly env) as [[contract|]|m]; cbn [Page.isThrow].
    + destruct (Page.isAvailable contract) as [b|m] eqn:Hb; cbn; intros Hin; in_cases Hin.
      injection Hin as ->. split; [done|]. right. exists contract. by rewrite Hb.
    + cbn. intros Hin. in_cases Hin.
    + cbn. intros Hin. in_cases Hin. injection Hin as ->. split; [done|]. by left.
Qed.

Lemma testAvailability_ignores_answer_witness :
  Page.getContractReadOnly (pageEnv signerOk) = Client.Returns (Some readerThree) /\
  Page.isAvailable readerThree = Client.Returns false /\
  Page.testAvailability (pageEnv signerOk) =
    [Page.GetContractReadOnly; Page.IsAvailable;
     Page.SetTransactionStatus true Client.StatusSuccess "Contract is available and working!";
     Page.HideStatusAfter 2000].
Proof.
  destruct (testAvailability_ignores_answer (pageEnv signerOk)) as (Hok & _ & _).
  split; [reflexivity|]. split; [reflexivity|].
  exact (Hok readerThree false eq_refl eq_refl).
Defined.



(** X24. [decryptData] calls the decryption hook only after it has read the
    record back as not verified, with the signer there; the hook is then
    asked about one handle, the one [getEncryptedValue] returned for this
    id, and addressed with the page's contract address. *)
Theorem decryptData_asks_oracle_after_unverified_read
    (env : Client.Env) (surveyId : string) (handles : list N) (addr : string) :
  Client.VerifyDecryption handles addr ∈ fst (Client.decryptData env surveyId) ->
  exists contractRead surveyData contractWrite handle,
    Client.getContractReadOnly env = Client.Returns (Some contractRead) /\
    Client.getBusinessData contractRead surveyId = Client.Returns surveyData /\
    Client.isVerified surveyData = false /\
    Client.getContractWithSigner env = Client.Returns (Some contractWrite) /\
    Client.getEncryptedValue contractRead surveyId = Client.Returns handle /\
    handles = [handle] /\ addr = Client.contractAddress env.
Proof.
  unfold Client.decryptData.
  destruct (negb (Client.isConnected env) || Client.falsy (Client.address env)).
  { cbn. intros Hin. in_cases Hin. }
  assert (Hcatch : forall m, Client.VerifyDecryption handles addr
                             ∉ fst (Client.decryptData_catch m)).
  { intros m. unfold Client.decryptData_catch.
    destruct (match m with Some _ => _ | None => _ end); cbn; intros Hin; in_cases Hin. }
  unfold Client.decryptData_try, Client.cbind, Client.await, Client.effect, Client.cret.
  destruct (Client.getContractReadOnly env) as [[contractRead|]|m].
  2:{ cbn. intros Hin. in_cases Hin. }
  2:{ pose proof (Hcatch m) as Hm. destruct (Client.decryptData_catch m) as [l' [r|?]];
        cbn in *; intros Hin; in_cases Hin; done. }
  destruct (Client.getBusinessData contractRead surveyId) as [surveyData|m] eqn:Hdata.
  2:{ pose proof (Hcatch m) as Hm. destruct (Client.decryptData_catch m) as [l' [r|?]];
        cbn in *; intros Hin; in_cases Hin; done. }
  destruct (Client.isVerified surveyData) eqn:Hv.
  { cbn. intros Hin. in_cases Hin. }
  destruct (Client.getContractWithSigner env) as [[contractWrite|]|m].
  2:{ cbn. intros Hin. in_cases Hin. }
  2:{ pose proof (Hcatch m) as Hm. destruct (Client.decryptData_catch m) as [l' [r|?]];
        cbn in *; intros Hin; in_cases Hin; done. }
  destruct (Client.getEncryptedValue contractRead surveyId) as [handle|m] eqn:Hh.
  2:{ pose proof (Hcatch m) as Hm. destruct (Client.decryptData_catch m) as [l' [r|?]];
        cbn in *; intros Hin; in_cases Hin; done. }
  intros Hin.
  assert (Heq : handles = [handle] /\ addr = Client.contractAddress env).
  { destruct (Client.verifyDecryption env [handle] (Client.contractAddress env)
                (Client.verifyDecryptionTx contractWrite surveyId)) as [result|m].
    - cbn in Hin. in_cases Hin. by injection Hin as -> ->.
    - pose proof (Hcatch m) as Hm. destruct (Client.decryptData_catch m) as [l' [r|?]];
        cbn in *; in_cases Hin; try done; by injection Hin as -> ->. }
  destruct Heq as [-> ->].
  exists contractRead, surveyData, contractWrite, handle. done.
Qed.

Lemma decryptData_asks_oracle_after_unverified_read_witness :
  Client.VerifyDecryption [9] "0x5EED" ∈ fst (Client.decryptData Client.losesRace "0") /\
  exists contractRead surveyData,
    Client.getContractReadOnly Client.losesRace = Client.Returns (Some contractRead) /\
    Client.getBusinessData contractRead "0" = Client.Returns surveyData /\
    Client.isVerified surveyData = false.
Proof.
  assert (Hin : Client.VerifyDecryption [9] "0x5EED"
                ∈ fst (Client.decryptData Client.losesRace "0")).
  { vm_compute. in_list. }
  split; [exact Hin|].
  destruct (decryptData_asks_oracle_after_unverified_read _ _ _ _ Hin)
    as (contractRead & surveyData & _ & _ & Hread & Hdata & Hv & _).
  exists contractRead, surveyData. done.
Defined.


